(** * hand-games: the per-frame game engines and the gesture predicates

    A shallow embedding of the six [detectFunction]s of
    [frontend/src/games] (QuickReaction, ShapeTracing, MemoryMatch,
    BallGame, SwipeChallenge, SimonSays) and of their helpers.

    Conventions of the embedding.
    - A JavaScript number is an exact rational ([Q]); timestamps, which
      are integers in the source, are [Z].
    - [Math.hypot] is only ever compared with a constant in the source, so
      the comparison is embedded on the squares ([hypot_lt], [hypot_gt]).
    - React refs are the fields of a per-game [State] record; the
      [setScore] calls a tick makes are returned as a list of [ScoreOp].
    - A tick receives a [Frame]: the clock, the canvas size, the detector
      result and the values [Math.random()] returns during that tick.
    - Reading a property of [undefined] throws in JavaScript: such a tick
      returns [None]. *)

From Stdlib Require Import ZArith QArith Qabs Qround Qminmax List Lia Lqa Bool.
From stdpp Require Import base gmap fin_sets list.
Import ListNotations.

Local Open Scope Q_scope.

(** ** JavaScript base operations *)

Module JS.

(** [a < b] on numbers. *)
Definition lt (a b : Q) : bool := negb (Qle_bool b a).

(** [a > b] on numbers. *)
Definition gt (a b : Q) : bool := lt b a.

(** [a >= b] and [a <= b] on numbers. *)
Definition ge (a b : Q) : bool := Qle_bool b a.
Definition le (a b : Q) : bool := Qle_bool a b.

(** [Math.hypot(a, b) < t]. *)
Definition hypot_lt (a b t : Q) : bool :=
  lt 0 t && lt (a * a + b * b) (t * t).

(** [Math.hypot(a, b) > t]. *)
Definition hypot_gt (a b t : Q) : bool :=
  lt t 0 || lt (t * t) (a * a + b * b).

(** [Math.abs(Math.hypot(a, b) - r) < t]. *)
Definition abs_hypot_minus_lt (a b r t : Q) : bool :=
  hypot_lt a b (r + t) && hypot_gt a b (r - t).

(** [arr[i]] for a number [i] that is an integer: [undefined] ([None])
    outside the array. *)
Definition index {A} (arr : list A) (i : Z) : option A :=
  if (i <? 0)%Z then None else arr !! Z.to_nat i.

(** [!ref.current] for a ref that holds an object, a non-empty string or
    [null]/[undefined]. *)
Definition is_null {A} (o : option A) : bool :=
  match o with None => true | Some _ => false end.

(** [Math.floor(r * n)], the random index idiom of the games. *)
Definition floor_scaled (r : Q) (n : nat) : Z :=
  Qfloor (r * inject_Z (Z.of_nat n)).

(** [arr.forEach((x, idx) => ...)] as a left fold that also passes the
    index. *)
Fixpoint forEach {A St} (body : St -> A -> nat -> St) (arr : list A)
    (idx : nat) (s : St) : St :=
  match arr with
  | [] => s
  | x :: rest => forEach body rest (S idx) (body s x idx)
  end.

End JS.

(** [Math.cos], [Math.sin] and [Math.PI] are built-ins of the host: the
    games are parametric in them. *)
Class Trig := MkTrig {
  Math_cos : Q -> Q;
  Math_sin : Q -> Q;
  Math_PI : Q
}.

(** A landmark, a canvas point. *)
Record point := Point { px : Q; py : Q }.

(** What one tick of the frame loop sees. [hands] is [results.landmarks]
    (empty when the detector returned nothing or no hand); [rand k] is the
    value of the [k]-th call of [Math.random()] in the tick. *)
Record Frame := MkFrame {
  now : Z;
  width : Q;
  height : Q;
  hands : list (list point);
  rand : nat -> Q
}.

(** The calls of [setScore] a tick makes. *)
Inductive ScoreOp :=
| SetScore (n : Z)      (* setScore(n) *)
| IncScore.             (* setScore(prev => prev + 1) *)

Definition apply_op (score : Z) (op : ScoreOp) : Z :=
  match op with
  | SetScore n => n
  | IncScore => (score + 1)%Z
  end.

Definition apply_ops (score : Z) (ops : list ScoreOp) : Z :=
  fold_left apply_op ops score.

(** The frame loop of GameWrapper over a [detectFunction]: one call per
    frame, until one throws. *)
Fixpoint run_ticks {St} (tick : St -> Frame -> option (St * list ScoreOp))
    (st : St) (frames : list Frame) : option (St * list ScoreOp) :=
  match frames with
  | [] => Some (st, [])
  | f :: rest =>
      match tick st f with
      | None => None
      | Some (st1, ops1) =>
          match run_ticks tick st1 rest with
          | None => None
          | Some (st2, ops2) => Some (st2, ops1 ++ ops2)
          end
      end
  end.

(** The ops of a tick, none when it throws. *)
Definition emitted {St} (r : option (St * list ScoreOp)) : list ScoreOp :=
  match r with
  | Some (_, ops) => ops
  | None => []
  end.

(** ** ShapeTracing.jsx *)

Module ShapeTracing.

Inductive Shape := circle | square.

#[global] Instance Shape_eq_dec : EqDecision Shape.
Proof. solve_decision. Defined.

Definition SHAPE_TYPES : list Shape := [circle; square].
Definition TOLERANCE : Q := 25.
Definition CHECKPOINTS : nat := 16.

Record TrailPoint := MkTrail { tx : Q; ty : Q; timestamp : Z }.

Record State := MkState {
  shapeType : option Shape;          (* shapeTypeRef *)
  checkpointsHit : gset nat;         (* checkpointsHitRef *)
  trailPoints : list TrailPoint;     (* trailPointsRef *)
  drawingStarted : bool              (* drawingStartedRef *)
}.

Definition initial : State := MkState None ∅ [] false.

(** [Math.floor(CHECKPOINTS * 0.9)] *)
Definition threshold : Z := Qfloor (inject_Z (Z.of_nat CHECKPOINTS) * 0.9).

Section WithTrig.

Context {trig : Trig}.

Definition isOnShape (shape : option Shape)
    (centerX centerY radius size tipX tipY : Q) : bool :=
  match shape with
  | Some circle =>
      JS.abs_hypot_minus_lt (tipX - centerX) (tipY - centerY) radius TOLERANCE
  | Some square =>
      let left := centerX - size / 2 in
      let right := centerX + size / 2 in
      let top := centerY - size / 2 in
      let bottom := centerY + size / 2 in
      let insideSquare :=
        JS.ge tipX (left - TOLERANCE) && JS.le tipX (right + TOLERANCE) &&
        JS.ge tipY (top - TOLERANCE) && JS.le tipY (bottom + TOLERANCE) in
      let nearEdge :=
        JS.lt (Qabs (tipX - left)) TOLERANCE ||
        JS.lt (Qabs (tipX - right)) TOLERANCE ||
        JS.lt (Qabs (tipY - top)) TOLERANCE ||
        JS.lt (Qabs (tipY - bottom)) TOLERANCE in
      insideSquare && nearEdge
  | None => false
  end.

(** The [i]-th checkpoint of the circle. *)
Definition circleCheckpoint (centerX centerY radius : Q) (i : nat) : point :=
  let angle :=
    (inject_Z (Z.of_nat i) / inject_Z (Z.of_nat CHECKPOINTS)) * Math_PI * 2 in
  Point (centerX + radius * Math_cos angle) (centerY + radius * Math_sin angle).

(** The test of one checkpoint: [Math.hypot(c.x - tipX, c.y - tipY) < TOLERANCE]. *)
Definition near (c : point) (tipX tipY : Q) : bool :=
  JS.hypot_lt (px c - tipX) (py c - tipY) TOLERANCE.

Definition checkCircleHit (centerX centerY radius tipX tipY : Q)
    (hit : gset nat) : gset nat :=
  fold_left
    (fun acc i =>
       if near (circleCheckpoint centerX centerY radius i) tipX tipY
       then {[ i ]} ∪ acc else acc)
    (seq 0 CHECKPOINTS) hit.

(** The array [sides] of [checkSquareHit]. *)
Definition sides (centerX centerY size : Q) : list point :=
  let left := centerX - size / 2 in
  let right := centerX + size / 2 in
  let top := centerY - size / 2 in
  let q := size / (inject_Z (Z.of_nat CHECKPOINTS) / 4) in
  [ Point left (top + q * 0); Point left (top + q * 1);
    Point left (top + q * 2); Point left (top + q * 3);
    Point (left + q * 0) top; Point (left + q * 1) top;
    Point (left + q * 2) top; Point (left + q * 3) top;
    Point right (top + q * 0); Point right (top + q * 1);
    Point right (top + q * 2); Point right (top + q * 3) ].

Definition checkSquareHit (centerX centerY size tipX tipY : Q)
    (hit : gset nat) : gset nat :=
  JS.forEach
    (fun acc edge idx =>
       if near edge tipX tipY then {[ idx ]} ∪ acc else acc)
    (sides centerX centerY size) 0%nat hit.

Definition shortSide (f : Frame) : Q := Qmin (width f) (height f).
Definition dynamicRadius (f : Frame) : Q := shortSide f * 0.3.
Definition dynamicSize (f : Frame) : Q := shortSide f * 0.6.
Definition centerX (f : Frame) : Q := width f / 2.
Definition centerY (f : Frame) : Q := height f / 2.

(** Lines 67-75: choose a shape when none is active. *)
Definition chooseShape (st : State) (f : Frame) : State :=
  if JS.is_null (shapeType st)
  then MkState (JS.index SHAPE_TYPES (JS.floor_scaled (rand f 0) (length SHAPE_TYPES)))
               ∅ [] false
  else st.

(** Lines 86-113: the fingertip, when a hand is present. *)
Definition trackFinger (st : State) (f : Frame) : option State :=
  match hands f with
  | [] => Some st
  | landmarks :: _ =>
      match landmarks !! 8%nat with
      | None => None
      | Some tip =>
          let tipX := px tip * width f in
          let tipY := py tip * height f in
          let started :=
            if drawingStarted st then true
            else isOnShape (shapeType st) (centerX f) (centerY f)
                   (dynamicRadius f) (dynamicSize f) tipX tipY in
          let trail :=
            if started
            then trailPoints st ++ [MkTrail tipX tipY (now f)]
            else trailPoints st in
          let hit :=
            match shapeType st with
            | Some circle =>
                checkCircleHit (centerX f) (centerY f) (dynamicRadius f)
                  tipX tipY (checkpointsHit st)
            | Some square =>
                checkSquareHit (centerX f) (centerY f) (dynamicSize f)
                  tipX tipY (checkpointsHit st)
            | None => checkpointsHit st
            end in
          Some (MkState (shapeType st) hit trail started)
      end
  end.

(** Lines 115-122: score and reset. *)
Definition completed (st : State) : bool :=
  (threshold <=? Z.of_nat (size (checkpointsHit st)))%Z.

Definition scoreAndReset (st : State) : State * list ScoreOp :=
  if completed st then (MkState None ∅ [] false, [IncScore]) else (st, []).

Definition detectFunction (st : State) (f : Frame)
    : option (State * list ScoreOp) :=
  match trackFinger (chooseShape st f) f with
  | None => None
  | Some st1 => Some (scoreAndReset st1)
  end.

(** The frame loop of GameWrapper over this game. *)
Definition run (st : State) (frames : list Frame)
    : option (State * list ScoreOp) :=
  run_ticks detectFunction st frames.

Inductive reachable : State -> Prop :=
| reach_initial : reachable initial
| reach_step st f st' ops :
    reachable st -> detectFunction st f = Some (st', ops) -> reachable st'.

(** The invariant of the frame loop: a square only ever holds indices
    below 12, the hit-set is empty while no shape is chosen, and between
    frames the count is under the threshold. *)
Definition square_bounded (st : State) : Prop :=
  shapeType st = Some square -> forall i, i ∈ checkpointsHit st -> (i < 12)%nat.

Definition inv (st : State) : Prop :=
  square_bounded st
  /\ (shapeType st = None -> checkpointsHit st = ∅)
  /\ completed st = false.

End WithTrig.

End ShapeTracing.

(** ** Gestures (MemoryMatch.jsx and SimonSays.jsx) *)

Inductive Gesture := open | two | rock | thumbs_up | fist.

#[global] Instance Gesture_eq_dec : EqDecision Gesture.
Proof. solve_decision. Defined.

Definition GESTURES : list Gesture := [open; two; rock; thumbs_up; fist].

(** A boolean expression that may throw. *)
Definition obool := option bool.

(** [a && b] with JavaScript's short circuit: [b] is not evaluated, and
    cannot throw, when [a] is false. *)
Definition oand (a b : obool) : obool :=
  match a with
  | Some true => b
  | Some false => Some false
  | None => None
  end.

Infix "&&?" := oand (at level 40, left associativity).

(** [test(p)] where [test] reads a property of [p]: throws on [undefined]. *)
Definition on_point (test : point -> bool) (p : option point) : obool :=
  test <$> p.

(** *** Reading the rules

    The statements about the rules are phrased over these. *)

(** The finger part of the five rules, common to both games, over the
    tests [up] and [dn] of a fingertip. *)
Definition fingers (up dn : option point -> obool) (lm : list point)
    (g : Gesture) : Prop :=
  let index := lm !! 8%nat in
  let middle := lm !! 12%nat in
  let ring := lm !! 16%nat in
  let pinky := lm !! 20%nat in
  match g with
  | open => up index = Some true /\ up middle = Some true
            /\ up ring = Some true /\ up pinky = Some true
  | two => up index = Some true /\ up middle = Some true
           /\ dn ring = Some true /\ dn pinky = Some true
  | rock => up index = Some true /\ dn middle = Some true
            /\ dn ring = Some true /\ up pinky = Some true
  | thumbs_up | fist =>
      dn index = Some true /\ dn middle = Some true
      /\ dn ring = Some true /\ dn pinky = Some true
  end.

(** The thumb part of the rules of SimonSays. *)
Definition simon_thumb (up dn : option point -> obool) (lm : list point)
    (g : Gesture) : Prop :=
  match g with
  | thumbs_up => up (lm !! 4%nat) = Some true
  | fist => dn (lm !! 4%nat) = Some true
  | _ => True
  end.

(** ** MemoryMatch.jsx *)

Module MemoryMatch.

Definition ROUND_TIME : Z := 8.

Record State := MkState {
  currentSequence : list (option Gesture);   (* currentSequenceRef *)
  currentStep : nat;                         (* currentStepRef *)
  roundTimer : Z                             (* roundTimerRef *)
}.

(** The refs at mount, [t0] being [Date.now()] then. *)
Definition initial (t0 : Z) : State := MkState [] 0 t0.

Definition randomGesture (r : Q) : option Gesture :=
  JS.index GESTURES (JS.floor_scaled r (length GESTURES)).

Definition checkGesture (landmarks : list point) (gesture : option Gesture)
    : obool :=
  let palmBase := landmarks !! 0%nat in
  let indexTip := landmarks !! 8%nat in
  let middleTip := landmarks !! 12%nat in
  let ringTip := landmarks !! 16%nat in
  let pinkyTip := landmarks !! 20%nat in
  let thumbTip := landmarks !! 4%nat in
  let thumbIp := landmarks !! 3%nat in
  match palmBase with
  | None => None
  | Some palm =>
      let handCenterY := py palm in
      let isFingerUp := on_point (fun tip => JS.lt (py tip) (handCenterY - 0.05)) in
      let isFingerDown := on_point (fun tip => JS.gt (py tip) (handCenterY + 0.05)) in
      isOpen ←
        isFingerUp indexTip &&? isFingerUp middleTip &&? isFingerUp ringTip &&?
        isFingerUp pinkyTip &&? on_point (fun t => JS.lt (px t) (px palm)) thumbTip;
      isTwo ←
        isFingerUp indexTip &&? isFingerUp middleTip &&? isFingerDown ringTip &&?
        isFingerDown pinkyTip;
      isRock ←
        isFingerUp indexTip &&? isFingerDown middleTip &&? isFingerDown ringTip &&?
        isFingerUp pinkyTip;
      isThumbsUp ←
        (tt ← thumbTip; ti ← thumbIp; Some (JS.gt (Qabs (py tt - py ti)) 0.04)) &&?
        isFingerDown indexTip &&? isFingerDown middleTip &&? isFingerDown ringTip &&?
        isFingerDown pinkyTip;
      isFist ←
        isFingerDown indexTip &&? isFingerDown middleTip &&? isFingerDown ringTip &&?
        isFingerDown pinkyTip &&?
        on_point (fun t => JS.lt (Qabs (py t - py palm)) 0.1) thumbTip;
      Some match gesture with
           | Some open => isOpen
           | Some two => isTwo
           | Some rock => isRock
           | Some thumbs_up => isThumbsUp
           | Some fist => isFist
           | None => false
           end
  end.

(** Step 1: a new round when there is no sequence or the time is up. *)
Definition expired (st : State) (f : Frame) : bool :=
  (ROUND_TIME * 1000 <? now f - roundTimer st)%Z.

Definition startRound (st : State) (f : Frame) : State :=
  if (length (currentSequence st) =? 0)%nat || expired st f
  then MkState [randomGesture (rand f 0); randomGesture (rand f 1)] 0 (now f)
  else st.

(** Steps 3 and 4: the hand against the current target. *)
Definition matchHand (st : State) (f : Frame) : option (State * list ScoreOp) :=
  match hands f with
  | [] => Some (st, [])
  | landmarks :: _ =>
      let currentTarget := mjoin (currentSequence st !! currentStep st) in
      match checkGesture landmarks currentTarget with
      | None => None
      | Some false => Some (st, [])
      | Some true =>
          let step := S (currentStep st) in
          if (length (currentSequence st) <=? step)%nat
          then Some (MkState [] 0 (roundTimer st), [IncScore])
          else Some (MkState (currentSequence st) step (roundTimer st), [])
      end
  end.

Definition detectFunction (st : State) (f : Frame)
    : option (State * list ScoreOp) :=
  matchHand (startRound st f) f.

(** Between frames there is no sequence (a round was just completed, or
    the game has not started) or a sequence of two gestures. *)
Definition two_or_none (st : State) : Prop :=
  currentSequence st = [] \/ length (currentSequence st) = 2%nat.

End MemoryMatch.

(** ** SimonSays.jsx *)

Module SimonSays.

Definition ROUND_TIME : Z := 5.

Record State := MkState {
  gesture : option Gesture;     (* gestureRef *)
  timer : Z                     (* timerRef *)
}.

Definition initial (t0 : Z) : State := MkState None t0.

Definition palmIndices : list nat := [0; 1; 5; 9; 13; 17]%nat.

(** The [reduce] over [palmIndices]: reading [landmarks[i].x] throws when the
    landmark is missing. *)
Definition palmSum (landmarks : list point) : option point :=
  fold_left
    (fun acc i =>
       a ← acc; p ← landmarks !! i; Some (Point (px a + px p) (py a + py p)))
    palmIndices (Some (Point 0 0)).

Definition checkGesture (landmarks : list point) (g : option Gesture) : obool :=
  match palmSum landmarks with
  | None => None
  | Some acc =>
      let n := inject_Z (Z.of_nat (length palmIndices)) in
      let palm := Point (px acc / n) (py acc / n) in
      match landmarks !! 9%nat with
      | None => None
      | Some mcp =>
          let mcpY := py mcp in
          let driveDist := Qabs (mcpY - py palm) in
          let upThresh := py palm - driveDist * 0.5 in
          let downThresh := py palm + driveDist * 0.3 in
          let isUp := on_point (fun pt => JS.lt (py pt) upThresh) in
          let isDown := on_point (fun pt => JS.gt (py pt) downThresh) in
          let thumbTip := landmarks !! 4%nat in
          let thumbIp := landmarks !! 3%nat in
          let indexTip := landmarks !! 8%nat in
          let middleTip := landmarks !! 12%nat in
          let ringTip := landmarks !! 16%nat in
          let pinkyTip := landmarks !! 20%nat in
          r_open ←
            isUp indexTip &&? isUp middleTip &&? isUp ringTip &&? isUp pinkyTip &&?
            on_point (fun t => JS.gt (Qabs (px t - px palm)) (driveDist * 0.3)) thumbTip;
          r_two ←
            isUp indexTip &&? isUp middleTip &&? isDown ringTip &&? isDown pinkyTip;
          r_rock ←
            isUp indexTip &&? isDown middleTip &&? isDown ringTip &&? isUp pinkyTip;
          r_thumbs_up ←
            isUp thumbTip &&? isDown indexTip &&? isDown middleTip &&?
            isDown ringTip &&? isDown pinkyTip;
          r_fist ←
            isDown indexTip &&? isDown middleTip &&? isDown ringTip &&?
            isDown pinkyTip &&? isDown thumbTip;
          Some match g with
               | Some open => r_open
               | Some two => r_two
               | Some rock => r_rock
               | Some thumbs_up => r_thumbs_up
               | Some fist => r_fist
               | None => false
               end
      end
  end.

Definition startRound (st : State) (f : Frame) : State :=
  if JS.is_null (gesture st) || (ROUND_TIME * 1000 <? now f - timer st)%Z
  then MkState (JS.index GESTURES (JS.floor_scaled (rand f 0) (length GESTURES)))
               (now f)
  else st.

(** [Math.max(0, ROUND_TIME - (now - timerRef.current) / 1000)] *)
Definition timeLeft (st : State) (f : Frame) : Q :=
  Qmax 0 (inject_Z ROUND_TIME - inject_Z (now f - timer st) / 1000).

Definition detectFunction (st : State) (f : Frame)
    : option (State * list ScoreOp) :=
  let st1 := startRound st f in
  match hands f with
  | [] => Some (st1, [])
  | lm :: _ =>
      match (if JS.gt (timeLeft st1 f) 0 then checkGesture lm (gesture st1)
             else Some false) with
      | None => None
      | Some true => Some (MkState None (now f), [IncScore])
      | Some false => Some (st1, [])
      end
  end.

(** The thresholds of SimonSays, as [checkGesture] computes them from the
    palm sum [acc] and the middle-finger base [mcp]. *)
Definition lowLine (acc mcp : point) : Q :=
  py acc / 6 - Qabs (py mcp - py acc / 6) * 0.5.

Definition highLine (acc mcp : point) : Q :=
  py acc / 6 + Qabs (py mcp - py acc / 6) * 0.3.

End SimonSays.

(** ** SwipeChallenge.jsx *)

Module SwipeChallenge.

Inductive Direction := left | right | up | down.

#[global] Instance Direction_eq_dec : EqDecision Direction.
Proof. solve_decision. Defined.

Definition ROUND_TIME : Z := 5.
Definition DIRECTIONS : list Direction := [left; right; up; down].

Record SwipeStart := MkStart { sx : Q; sy : Q; stime : Z }.

Record State := MkState {
  currentDirection : option Direction;   (* currentDirectionRef *)
  swipeStart : option SwipeStart;        (* swipeStartRef *)
  roundTimer : Z                         (* roundTimerRef *)
}.

Definition initial (t0 : Z) : State := MkState None None t0.

Definition randomDirection (r : Q) : option Direction :=
  JS.index DIRECTIONS (JS.floor_scaled r (length DIRECTIONS)).

Definition getSwipeDirection (deltaX deltaY : Q) : Direction :=
  if JS.gt (Qabs deltaX) (Qabs deltaY)
  then (if JS.gt deltaX 0 then right else left)
  else (if JS.gt deltaY 0 then down else up).

(** Step 1: a new round when there is no prompt or the time is up. *)
Definition startRound (st : State) (f : Frame) : State :=
  if JS.is_null (currentDirection st)
     || (ROUND_TIME * 1000 <? now f - roundTimer st)%Z
  then MkState (randomDirection (rand f 0)) None (now f)
  else st.

(** Step 3: the fingertip against the start of the swipe. *)
Definition trackSwipe (st : State) (f : Frame) : option (State * list ScoreOp) :=
  match hands f with
  | [] => Some (st, [])
  | landmarks :: _ =>
      match landmarks !! 8%nat with
      | None => None
      | Some tip =>
          let tipX := px tip * width f in
          let tipY := py tip * height f in
          match swipeStart st with
          | None =>
              Some (MkState (currentDirection st)
                      (Some (MkStart tipX tipY (now f))) (roundTimer st), [])
          | Some start =>
              let deltaX := tipX - sx start in
              let deltaY := tipY - sy start in
              if JS.hypot_gt deltaX deltaY 80
              then
                let detectedDirection := getSwipeDirection deltaX deltaY in
                Some (MkState None None (now f),
                      if bool_decide (Some detectedDirection = currentDirection st)
                      then [IncScore] else [])
              else Some (st, [])
          end
      end
  end.

Definition detectFunction (st : State) (f : Frame)
    : option (State * list ScoreOp) :=
  trackSwipe (startRound st f) f.

End SwipeChallenge.

(** ** QuickReaction.jsx *)

Module QuickReaction.

Definition SPAWN_INTERVAL : Z := 2000.
Definition TARGET_RADIUS : Q := 30.

Record Target := MkTarget { tgx : Q; tgy : Q; spawnTime : Z }.

Record State := MkState {
  target : option Target;        (* targetRef *)
  lastSpawn : Z;                 (* lastSpawnRef *)
  reactionTime : option Z        (* the reactionTime state *)
}.

Definition initial (t0 : Z) : State := MkState None t0 None.

(** Step 1: a new target when there is none or the interval has passed. *)
Definition spawn (st : State) (f : Frame) : State :=
  if JS.is_null (target st)
     || (SPAWN_INTERVAL <? now f - lastSpawn st)%Z
  then MkState
         (Some (MkTarget (rand f 0 * (width f - 2 * TARGET_RADIUS) + TARGET_RADIUS)
                         (rand f 1 * (height f - 2 * TARGET_RADIUS) + TARGET_RADIUS)
                         (now f)))
         (now f) (reactionTime st)
  else st.

(** Step 3: the fingertip against the target. [targetRef.current] is never
    [null] here, [spawn] has run. *)
Definition checkTap (st : State) (f : Frame) : option (State * list ScoreOp) :=
  match hands f with
  | [] => Some (st, [])
  | landmarks :: _ =>
      match landmarks !! 8%nat, target st with
      | None, _ | _, None => None
      | Some tip, Some tg =>
          let tipX := px tip * width f in
          let tipY := py tip * height f in
          let dx := tipX - tgx tg in
          let dy := tipY - tgy tg in
          if JS.hypot_lt dx dy TARGET_RADIUS
          then Some (MkState None (now f) (Some (now f - spawnTime tg)%Z), [IncScore])
          else Some (st, [])
      end
  end.

Definition detectFunction (st : State) (f : Frame)
    : option (State * list ScoreOp) :=
  checkTap (spawn st f) f.

End QuickReaction.

(** ** BallGame.jsx *)

Module BallGame.

Definition BALL_COUNT : nat := 4.
Definition FLASH_TIME : Z := 800.
Definition WAIT_TIME : Z := 300.
Definition BALL_RADIUS : Q := 30.
Definition FEEDBACK_TIME : Z := 500.

Inductive Phase := init | show | input.
Inductive Feedback := correct | wrong.

#[global] Instance Phase_eq_dec : EqDecision Phase.
Proof. solve_decision. Defined.

#[global] Instance Feedback_eq_dec : EqDecision Feedback.
Proof. solve_decision. Defined.

(** [timeouts] holds the due time of every [setTimeout] callback that has
    been scheduled and has not run yet, oldest first. *)
Record State := MkState {
  balls : list point;            (* ballsRef *)
  sequence : list Z;             (* sequenceRef *)
  gameState : Phase;             (* gameStateRef *)
  flashIndex : nat;              (* flashIndexRef *)
  lastTime : Z;                  (* lastTimeRef *)
  inputIndex : nat;              (* inputIndexRef *)
  tappedIdx : option nat;        (* tappedIdxRef *)
  feedback : option Feedback;    (* feedbackRef *)
  timeouts : list Z
}.

Definition initial : State := MkState [] [] init 0 0 0 None None [].

(** [!tappedIdxRef.current]: [null] is falsy, and so is the number 0. *)
Definition not_tapped (t : option nat) : bool :=
  match t with
  | None => true
  | Some O => true
  | Some (S _) => false
  end.

Definition randomBall (f : Frame) (i : nat) : point :=
  Point (rand f (2 * i)%nat * (width f - BALL_RADIUS * 2) + BALL_RADIUS)
        (rand f (2 * i + 1)%nat * (height f - BALL_RADIUS * 2) + BALL_RADIUS).

(** Phase 1 (lines 35-48). *)
Definition initPhase (st : State) (f : Frame) : State * list ScoreOp :=
  if bool_decide (gameState st = init)
  then (MkState (map (randomBall f) (seq 0 BALL_COUNT))
                [JS.floor_scaled (rand f (2 * BALL_COUNT)%nat) BALL_COUNT]
                show 0 (now f) 0 None None (timeouts st),
        [SetScore 0])
  else (st, []).

(** Phase 2 (lines 51-62). *)
Definition showPhase (st : State) (f : Frame) : State :=
  if bool_decide (gameState st = show)
  then
    if (FLASH_TIME + WAIT_TIME <? now f - lastTime st)%Z
    then
      let flash := S (flashIndex st) in
      if (length (sequence st) <=? flash)%nat
      then MkState (balls st) (sequence st) input flash (now f) 0 None
                   (feedback st) (timeouts st)
      else MkState (balls st) (sequence st) (gameState st) flash (now f)
                   (inputIndex st) (tappedIdx st) (feedback st) (timeouts st)
    else st
  else st.

(** The body of the [forEach] of lines 112-140, for the ball [ball] of index
    [idx]; the accumulator pairs the refs with the local [touching]. *)
Definition touchBall (f : Frame) (tipX tipY : Q) (acc : State * bool)
    (ball : point) (idx : nat) : State * bool :=
  let (st, touching) := acc in
  if JS.hypot_lt (px ball - tipX) (py ball - tipY) BALL_RADIUS
  then
    if not_tapped (tappedIdx st)
    then
      let isCorrect :=
        bool_decide (sequence st !! inputIndex st = Some (Z.of_nat idx)) in
      (MkState (balls st) (sequence st) (gameState st) (flashIndex st)
               (lastTime st) (inputIndex st) (Some idx)
               (Some (if isCorrect then correct else wrong))
               (timeouts st ++ [(now f + FEEDBACK_TIME)%Z]),
       true)
    else (st, true)
  else (st, touching).

(** Phase 4 (lines 103-146). *)
Definition inputPhase (st : State) (f : Frame) : option State :=
  if bool_decide (gameState st = input)
  then
    match hands f with
    | [] => Some st
    | landmarks :: _ =>
        match landmarks !! 8%nat with
        | None => None
        | Some tip =>
            let tipX := px tip * width f in
            let tipY := py tip * height f in
            let (st1, touching) :=
              JS.forEach (touchBall f tipX tipY) (balls st) 0%nat (st, false) in
            if negb touching && JS.is_null (feedback st1)
            then Some (MkState (balls st1) (sequence st1) (gameState st1)
                         (flashIndex st1) (lastTime st1) (inputIndex st1) None
                         (feedback st1) (timeouts st1))
            else Some st1
        end
    end
  else Some st.

Definition detectFunction (st : State) (f : Frame)
    : option (State * list ScoreOp) :=
  let (st1, ops) := initPhase st f in
  match inputPhase (showPhase st1 f) f with
  | None => None
  | Some st3 => Some (st3, ops)
  end.

(** The callback given to [setTimeout] (lines 122-137); [dateNow] is
    [Date.now()] and [r] is [Math.random()] when it runs. *)
Definition feedbackTimeout (st : State) (dateNow : Z) (r : Q)
    : State * list ScoreOp :=
  if bool_decide (feedback st = Some wrong)
  then (MkState (balls st) (sequence st) init (flashIndex st) (lastTime st)
                (inputIndex st) None None (timeouts st), [])
  else
    let idx := S (inputIndex st) in
    if (idx =? length (sequence st))%nat
    then (MkState (balls st) (sequence st ++ [JS.floor_scaled r BALL_COUNT])
                  show 0 dateNow idx None None (timeouts st), [IncScore])
    else (MkState (balls st) (sequence st) (gameState st) (flashIndex st)
                  (lastTime st) idx None None (timeouts st), []).

(** What the event loop runs: a frame of the game loop, or the oldest
    scheduled callback once it is due. *)
Inductive Event :=
| Tick (f : Frame)
| Timeout (dateNow : Z) (r : Q).

Definition dropTimeout (st : State) : State :=
  MkState (balls st) (sequence st) (gameState st) (flashIndex st) (lastTime st)
          (inputIndex st) (tappedIdx st) (feedback st) (tail (timeouts st)).

Definition step (st : State) (ev : Event) : option (State * list ScoreOp) :=
  match ev with
  | Tick f => detectFunction st f
  | Timeout dateNow r =>
      match timeouts st with
      | due :: _ =>
          if (due <=? dateNow)%Z
          then Some (feedbackTimeout (dropTimeout st) dateNow r)
          else Some (st, [])
      | [] => Some (st, [])
      end
  end.

Fixpoint run (st : State) (evs : list Event) : option (State * list ScoreOp) :=
  match evs with
  | [] => Some (st, [])
  | ev :: rest =>
      match step st ev with
      | None => None
      | Some (st1, ops1) =>
          match run st1 rest with
          | None => None
          | Some (st2, ops2) => Some (st2, ops1 ++ ops2)
          end
      end
  end.

End BallGame.

(** ** Frames as the detector delivers them *)

(** MediaPipe's hand landmarker reports 21 landmarks for every hand. *)
Definition full_hands (f : Frame) : Prop :=
  Forall (fun lm : list point => (21 <= length lm)%nat) (hands f).

(** The hand of a frame lacks the index fingertip. *)
Definition no_fingertip (f : Frame) : Prop :=
  exists lm others, hands f = lm :: others /\ lm !! 8%nat = None.



(** *** SwipeChallenge: frames that do not end the swipe *)

(** The opposite direction. *)
Definition opposite (d : SwipeChallenge.Direction) : SwipeChallenge.Direction :=
  match d with
  | SwipeChallenge.left => SwipeChallenge.right
  | SwipeChallenge.right => SwipeChallenge.left
  | SwipeChallenge.up => SwipeChallenge.down
  | SwipeChallenge.down => SwipeChallenge.up
  end.

(** A frame within the round time of [st] whose fingertip, if there is a hand,
    is no farther than the threshold from the recorded start [start]. *)
Definition short_of_swipe (st : SwipeChallenge.State) (start : SwipeChallenge.SwipeStart)
    (f : Frame) : Prop :=
  (now f - SwipeChallenge.roundTimer st <= SwipeChallenge.ROUND_TIME * 1000)%Z
  /\ match hands f with
     | [] => True
     | lm :: _ =>
         exists tip, lm !! 8%nat = Some tip
           /\ JS.hypot_gt (px tip * width f - SwipeChallenge.sx start)
                          (py tip * height f - SwipeChallenge.sy start) 80 = false
     end.

(** ** GameWrapper.jsx *)

Module GameWrapper.

Definition GAME_DURATION : Z := 60.

(** The React state of the wrapper; [handLandmarker] tells whether the
    model has been loaded. *)
Record State := MkState {
  score : Z;
  timeLeft : Z;
  gameStarted : bool;
  gameOver : bool;
  handLandmarker : bool
}.

Definition initial : State := MkState 0 GAME_DURATION false false false.

(** The model has been created and stored. *)
Definition modelLoaded (w : State) : State :=
  MkState (score w) (timeLeft w) (gameStarted w) (gameOver w) true.

Definition handleStart (w : State) : State :=
  MkState 0 GAME_DURATION true false (handLandmarker w).

(** The callback of [setInterval]. The interval exists only while the game
    is started and not over (lines 71-86). *)
Definition countdown (w : State) : State :=
  if negb (gameStarted w) || gameOver w then w
  else if (timeLeft w <=? 1)%Z
       then MkState (score w) 0 (gameStarted w) true (handLandmarker w)
       else MkState (score w) (timeLeft w - 1) (gameStarted w) (gameOver w)
                    (handLandmarker w).

(** One run of [loop] (lines 96-118) around the game [tick] whose refs are
    [g]. The loop exists once the model is loaded and the game started; the
    canvas takes the size of the video, so the width of the frame is
    [video.videoWidth]. *)
Definition loop {G} (tick : G -> Frame -> option (G * list ScoreOp))
    (w : State) (g : G) (f : Frame) : option (State * G) :=
  if negb (handLandmarker w && gameStarted w) then Some (w, g)
  else if Qeq_bool (width f) 0 then Some (w, g)
  else if gameOver w then Some (w, g)
  else match tick g f with
       | None => None
       | Some (g', ops) =>
           Some (MkState (apply_ops (score w) ops) (timeLeft w) (gameStarted w)
                         (gameOver w) (handLandmarker w), g')
       end.

(** What happens during a session: the interval fires, or the browser runs
    an animation frame. *)
Inductive Event :=
| Second
| AnimationFrame (f : Frame).

Definition step {G} (tick : G -> Frame -> option (G * list ScoreOp))
    (w : State) (g : G) (ev : Event) : option (State * G) :=
  match ev with
  | Second => Some (countdown w, g)
  | AnimationFrame f => loop tick w g f
  end.

Fixpoint session {G} (tick : G -> Frame -> option (G * list ScoreOp))
    (w : State) (g : G) (evs : list Event) : option (State * G) :=
  match evs with
  | [] => Some (w, g)
  | ev :: rest =>
      match step tick w g ev with
      | None => None
      | Some (w1, g1) => session tick w1 g1 rest
      end
  end.

(** The number of times the interval fired. *)
Fixpoint seconds (evs : list Event) : nat :=
  match evs with
  | [] => 0
  | Second :: rest => S (seconds rest)
  | AnimationFrame _ :: rest => seconds rest
  end.

End GameWrapper.

(** ** Profile.jsx *)

Module Profile.

(** The game types of the Score schema (its [enum]). *)
Inductive GameType :=
| BallGame | SimonSays | ShapeTracing | MemoryMatch | SwipeChallenge | QuickReaction.

#[global] Instance GameType_eq_dec : EqDecision GameType.
Proof. solve_decision. Defined.

(** A score document as the page reads it. *)
Record Score := MkScore {
  score : Q;
  gameType : GameType
}.

(** [Math.max(...xs)] of a non-empty array, given as head and tail. *)
Definition maxOf (x : Q) (xs : list Q) : Q := fold_left Qmax xs x.

(** [scores] is the state of the page; it only ever holds an array. *)
Definition getScoresByGame (scores : list Score) (type : GameType) : list Score :=
  List.filter (fun s => bool_decide (gameType s = type)) scores.

Definition getHighestScore (scores : list Score) (type : GameType) : Q :=
  match getScoresByGame scores type with
  | [] => 0
  | s :: rest => maxOf (score s) (map score rest)
  end.

End Profile.

(** ** backend/middleware/authMiddleware.js *)

Module AuthMiddleware.
Import Stdlib.Strings.Ascii Stdlib.Strings.String.
Local Open Scope string_scope.

(** [s.split(sep)] for a separator of one character. *)
Fixpoint split (sep : ascii) (s : string) : list string :=
  match s with
  | EmptyString => [EmptyString]
  | String c rest =>
      if Ascii.eqb c sep then EmptyString :: split sep rest
      else
        match split sep rest with
        | h :: t => String c h :: t
        | [] => [String c EmptyString]
        end
  end.

(** Truthiness of a value that is a string or [undefined]. *)
Definition truthy (s : option string) : bool :=
  match s with
  | Some (String _ _) => true
  | _ => false
  end.

(** The calls the middleware makes: [res.status(s).json({ message })],
    or [next()] with [req.user] set. *)
Inductive Effect (User : Type) :=
| Respond (status : Z) (message : string)
| Next (user : option User).

Arguments Respond {User} status message.
Arguments Next {User} user.

(** The condition of the first [if]. *)
Definition bearer (authorization : option string) : bool :=
  match authorization with
  | Some a => truthy (Some a) && prefix "Bearer" a
  | None => false
  end.

(** [authorization.split(" ")[1]]. *)
Definition tokenOf (a : string) : option string :=
  nth_error (split " "%char a) 1.

(** [jwt.verify] and [User.findById] are the environment: [verify]
    gives the id of the decoded payload or throws ([None]);
    [findById] gives the document, [null] ([Some None]), or rejects
    ([None]).  The effects are listed in the order they happen. *)
Definition protect {Id User : Type}
    (verify : option string -> option Id)
    (findById : Id -> option (option User))
    (authorization : option string) : list (Effect User) :=
  let '(token, done) :=
    match authorization with
    | Some a =>
        if bearer authorization then
          let token := tokenOf a in
          (token,
           match verify token with
           | Some id =>
               match findById id with
               | Some user => [Next user]
               | None => [Respond 401 "Not authorized, token failed"]
               end
           | None => [Respond 401 "Not authorized, token failed"]
           end)
        else (None, [])
    | None => (None, [])
    end in
  if truthy token then done
  else done ++ [Respond 401 "Not authorized, no token"].

End AuthMiddleware.

Module AuthExamples.
Import Stdlib.Strings.Ascii Stdlib.Strings.String.
Local Open Scope string_scope.

(** A verifier that knows one token, and a user table with one row. *)
Definition accept_secret (t : option string) : option nat :=
  match t with
  | Some "secret" => Some 7%nat
  | _ => None
  end.

Definition one_user (id : nat) : option (option string) :=
  Some (if Nat.eqb id 7 then Some "ada" else None).

End AuthExamples.

(** ** Concrete data for the examples *)

Module Examples.

(** Sixteen rational points of the unit circle, one near each direction
    [2 * PI * i / 16]: an executable stand-in for [Math.cos] and [Math.sin]
    at the checkpoint angles. *)
Definition unit16 : list (Q * Q) :=
  [ (1, 0); (12 # 13, 5 # 13); (697 # 985, 696 # 985); (5 # 13, 12 # 13);
    (0, 1); (- (5 # 13), 12 # 13); (- (697 # 985), 696 # 985); (- (12 # 13), 5 # 13);
    (- 1, 0); (- (12 # 13), - (5 # 13)); (- (697 # 985), - (696 # 985));
    (- (5 # 13), - (12 # 13)); (0, - 1); (5 # 13, - (12 # 13));
    (697 # 985, - (696 # 985)); (12 # 13, - (5 # 13)) ].

Definition table_PI : Q := 355 # 113.

Definition direction (angle : Q) : Q * Q :=
  nth (Z.to_nat ((Qfloor (angle * 8 / table_PI + (1 # 2))) mod 16)) unit16 (1, 0).

Definition table_trig : Trig :=
  MkTrig (fun a => fst (direction a)) (fun a => snd (direction a)) table_PI.

(** A hand of 21 landmarks with the index fingertip (8) at [tip] and the
    other landmarks at the origin. *)
Definition hand_with_tip (tip : point) : list point :=
  replicate 8 (Point 0 0) ++ [tip] ++ replicate 12 (Point 0 0).

(** A 640 x 480 frame with the index fingertip at the canvas point
    [(x, y)]; every [Math.random()] returns [r]. *)
Definition tip_frame (t : Z) (x y r : Q) : Frame :=
  MkFrame t 640 480 [hand_with_tip (Point (x / 640) (y / 480))] (fun _ => r).

(** A 640 x 480 frame without a hand. *)
Definition empty_frame (t : Z) (r : Q) : Frame :=
  MkFrame t 640 480 [] (fun _ => r).

(** The [i]-th point of the circle of radius 144 around (320, 240): the
    circle ShapeTracing draws on a 640 x 480 canvas. *)
Definition on_circle (i : nat) : Q * Q :=
  let d := nth i unit16 (1, 0) in (320 + 144 * fst d, 240 + 144 * snd d).

(** The fingertip on the [i]-th checkpoint of that circle, 16 ms after the
    previous frame; [Math.random()] returns 0, which selects the circle. *)
Definition sweep_frame (i : nat) : Frame :=
  tip_frame (16 * Z.of_nat i) (fst (on_circle i)) (snd (on_circle i)) 0.

Definition sweep (n : nat) : list Frame := map sweep_frame (seq 0 n).

(** ShapeTracing with a square chosen and nothing traced, and with a circle
    of which the checkpoints of [hit] are hit. *)
Definition fresh_square : ShapeTracing.State :=
  ShapeTracing.MkState (Some ShapeTracing.square) ∅ [] false.

Definition circle_with (hit : list nat) (started : bool) : ShapeTracing.State :=
  ShapeTracing.MkState (Some ShapeTracing.circle) (list_to_set hit) [] started.

(** A hand of 21 landmarks given by the landmarks the predicates read: the
    wrist and palm bases (0, 1, 5, 13, 17) at [base], the middle-finger base
    (9) at [mcp], the thumb joint (3) and tip (4) and the four fingertips
    (8, 12, 16, 20); the other landmarks are at [base]. *)
Definition hand21 (base mcp thumbIp thumbTip indexTip middleTip ringTip pinkyTip : point)
    : list point :=
  [ base; base; base; thumbIp; thumbTip; base; base; base; indexTip; mcp; base;
    base; middleTip; base; base; base; ringTip; base; base; base; pinkyTip ].

(** A closed hand seen by MemoryMatch: the four fingertips below the wrist
    line, the thumb tip 0.05 from the wrist line and 0.05 from its joint. *)
Definition thumb_out_fist : list point :=
  hand21 (Point 0.5 0.5) (Point 0.5 0.45) (Point 0.4 0.6) (Point 0.4 0.55)
         (Point 0.45 0.6) (Point 0.5 0.6) (Point 0.55 0.6) (Point 0.6 0.6).

(** A closed hand seen by SimonSays: palm centre at 0.58, every tip below
    the lower threshold 0.61. *)
Definition closed_fist : list point :=
  hand21 (Point 0.5 0.6) (Point 0.5 0.48) (Point 0.4 0.7) (Point 0.4 0.7)
         (Point 0.45 0.7) (Point 0.5 0.7) (Point 0.55 0.7) (Point 0.6 0.7).

(** A 640 x 480 frame showing the hand [lm]. *)
Definition hand_frame (t : Z) (lm : list point) (r : Q) : Frame :=
  MkFrame t 640 480 [lm] (fun _ => r).

(** BallGame on a 640 x 480 canvas: the values of [Math.random()] that
    place the four balls at (100, 100), (300, 100), (100, 300), (300, 300)
    and draw ball 0 for the sequence. *)
Definition layout_rand (k : nat) : Q :=
  nth k [7 # 58; 1 # 6; 27 # 58; 1 # 6; 7 # 58; 9 # 14; 27 # 58; 9 # 14] 0.

(** The first frame (Init), a frame after the flash (Show to Input), then
    two consecutive frames with the fingertip resting on ball 0. *)
Definition ball_init_frame : Frame := MkFrame 0 640 480 [] layout_rand.
Definition ball_shown_frame : Frame := empty_frame 1200 0.
Definition ball_touch_frame (t : Z) : Frame := tip_frame t 100 100 0.

Definition resting_touch : list BallGame.Event :=
  [ BallGame.Tick ball_init_frame; BallGame.Tick ball_shown_frame;
    BallGame.Tick (ball_touch_frame 1300); BallGame.Tick (ball_touch_frame 1316) ].

(** The same touch, followed by the feedback callbacks it scheduled. *)
Definition resting_touch_feedback : list BallGame.Event :=
  resting_touch ++ [ BallGame.Timeout 1800 0; BallGame.Timeout 1816 0 ].

(** The fingertip resting on ball 1 instead. *)
Definition resting_touch_other : list BallGame.Event :=
  [ BallGame.Tick ball_init_frame; BallGame.Tick ball_shown_frame;
    BallGame.Tick (tip_frame 1300 300 100 0); BallGame.Tick (tip_frame 1316 300 100 0) ].

End Examples.

(** * Properties *)

(** ** The base operations *)

Module JSFacts.

Lemma lt_iff (a b : Q) : JS.lt a b = true <-> a < b.
Proof.
  unfold JS.lt. rewrite negb_true_iff, <- not_true_iff_false, Qle_bool_iff.
  split; [apply Qnot_le_lt | apply Qlt_not_le].
Qed.

Lemma gt_iff (a b : Q) : JS.gt a b = true <-> b < a.
Proof. apply lt_iff. Qed.

Lemma le_iff (a b : Q) : JS.le a b = true <-> a <= b.
Proof. apply Qle_bool_iff. Qed.

Lemma ge_iff (a b : Q) : JS.ge a b = true <-> b <= a.
Proof. apply Qle_bool_iff. Qed.

Lemma hypot_lt_iff (a b t : Q) :
  JS.hypot_lt a b t = true <-> 0 < t /\ a * a + b * b < t * t.
Proof. unfold JS.hypot_lt. now rewrite andb_true_iff, !lt_iff. Qed.


Lemma abs_lt_iff (x t : Q) : JS.lt (Qabs x) t = true <-> - t < x /\ x < t.
Proof. rewrite lt_iff. apply Qabs_Qlt_condition. Qed.

(** Membership in the result of a [forEach] that adds the indices passing a
    test to a set. *)
Lemma elem_of_forEach_add {A} (test : A -> bool) (arr : list A) :
  forall (k : nat) (hit : gset nat) (i : nat),
    i ∈ JS.forEach (fun acc x idx => if test x then {[ idx ]} ∪ acc else acc)
          arr k hit
    <-> i ∈ hit \/ exists x, arr !! (i - k)%nat = Some x /\ (k <= i)%nat /\ test x = true.
Proof.
  induction arr as [|x arr IH]; intros k hit i; simpl.
  - split; [auto | intros [H | (y & H & _)]; [exact H | discriminate]].
  - rewrite IH. split.
    + intros [H | (y & Hy & Hk & Ht)].
      * destruct (test x) eqn:Hx; [|auto].
        apply elem_of_union in H as [H | H]; [|auto].
        apply elem_of_singleton in H. subst i. right. exists x.
        rewrite Nat.sub_diag. auto.
      * right. exists y. replace (i - k)%nat with (S (i - S k)) by lia.
        simpl. split; [exact Hy | split; [lia | exact Ht]].
    + intros [H | (y & Hy & Hk & Ht)].
      * left. destruct (test x); [apply elem_of_union; right; exact H | exact H].
      * destruct (decide (i = k)) as [He | Hne].
        -- subst i. rewrite Nat.sub_diag in Hy. simpl in Hy. injection Hy as Hy. subst y.
           left. rewrite Ht. apply elem_of_union. left. now apply elem_of_singleton.
        -- right. exists y. replace (i - k)%nat with (S (i - S k)) in Hy by lia.
           simpl in Hy. split; [exact Hy | split; [lia | exact Ht]].
Qed.

End JSFacts.

(** ** ShapeTracing *)

Module ShapeTracingFacts.

Import ShapeTracing.

Section WithTrig.

Context {trig : Trig}.

Implicit Types (st : State) (f : Frame) (hit : gset nat).

Lemma threshold_value : threshold = 14%Z.
Proof. reflexivity. Qed.

Lemma elem_of_checkCircleHit cx cy r tipX tipY hit (i : nat) :
  i ∈ checkCircleHit cx cy r tipX tipY hit
  <-> i ∈ hit \/ ((i < CHECKPOINTS)%nat /\ near (circleCheckpoint cx cy r i) tipX tipY = true).
Proof.
  unfold checkCircleHit.
  assert (G : forall (l : list nat) hit0,
    i ∈ fold_left (fun acc j =>
           if near (circleCheckpoint cx cy r j) tipX tipY then {[ j ]} ∪ acc else acc)
          l hit0
    <-> i ∈ hit0 \/ (In i l /\ near (circleCheckpoint cx cy r i) tipX tipY = true)).
  { induction l as [|j l IHl]; intros hit0; simpl.
    - tauto.
    - rewrite IHl. destruct (near (circleCheckpoint cx cy r j) tipX tipY) eqn:Hj.
      + rewrite elem_of_union, elem_of_singleton. split.
        * intros [[-> | H] | [H1 H2]]; auto.
        * intros [H | [[<- | H1] H2]]; auto.
      + split.
        * intros [H | [H1 H2]]; auto.
        * intros [H | [[<- | H1] H2]]; auto. congruence. }
  rewrite G, in_seq. split; intros [H | [H1 H2]]; auto; right; split; auto; lia.
Qed.

Lemma elem_of_checkSquareHit cx cy size tipX tipY hit (i : nat) :
  i ∈ checkSquareHit cx cy size tipX tipY hit
  <-> i ∈ hit \/ exists p, sides cx cy size !! i = Some p /\ near p tipX tipY = true.
Proof.
  unfold checkSquareHit.
  rewrite (JSFacts.elem_of_forEach_add (fun p => near p tipX tipY)).
  rewrite Nat.sub_0_r. split; intros [H | (p & Hp & H)]; auto; right; exists p.
  - tauto.
  - split; [exact Hp | split; [lia | exact H]].
Qed.

Lemma sides_length cx cy size : length (sides cx cy size) = 12%nat.
Proof. reflexivity. Qed.

Lemma checkSquareHit_bound cx cy size tipX tipY hit :
  (forall i, i ∈ hit -> (i < 12)%nat) ->
  forall i, i ∈ checkSquareHit cx cy size tipX tipY hit -> (i < 12)%nat.
Proof.
  intros Hhit i Hi. apply elem_of_checkSquareHit in Hi as [Hi | (p & Hp & _)].
  - auto.
  - apply lookup_lt_Some in Hp. now rewrite sides_length in Hp.
Qed.

(** A set of indices below [n] has at most [n] elements. *)
Lemma size_below (n : nat) (hit : gset nat) :
  (forall i, i ∈ hit -> (i < n)%nat) -> (size hit <= n)%nat.
Proof.
  intros H.
  assert (Hsub : hit ⊆ set_seq 0 n).
  { intros i Hi. apply elem_of_set_seq. split; [lia | simpl; auto]. }
  apply subseteq_size in Hsub. now rewrite size_set_seq in Hsub.
Qed.

Lemma completed_false_iff st :
  completed st = false <-> (size (checkpointsHit st) < 14)%nat.
Proof.
  unfold completed. rewrite threshold_value, Z.leb_gt. lia.
Qed.

Lemma chooseShape_square_bounded st f :
  square_bounded st -> square_bounded (chooseShape st f).
Proof.
  unfold chooseShape, square_bounded.
  destruct (shapeType st) as [s|] eqn:Hs; simpl.
  - rewrite Hs. auto.
  - intros _ _ i Hi. now apply not_elem_of_empty in Hi.
Qed.

Lemma trackFinger_shape st f st1 :
  trackFinger st f = Some st1 -> shapeType st1 = shapeType st.
Proof.
  unfold trackFinger. destruct (hands f) as [|lm ?]; [congruence|].
  destruct (lm !! 8%nat); [|discriminate]. now intros [= <-].
Qed.

Lemma trackFinger_square_bounded st f st1 :
  trackFinger st f = Some st1 -> square_bounded st -> square_bounded st1.
Proof.
  unfold trackFinger, square_bounded.
  destruct (hands f) as [|lm ?]; [now intros [= <-]|].
  destruct (lm !! 8%nat) as [tip|]; [|discriminate]. intros [= <-]; simpl.
  intros Hb Hsq. rewrite Hsq. now apply checkSquareHit_bound, Hb.
Qed.

Lemma scoreAndReset_inv st :
  square_bounded st -> (shapeType st = None -> checkpointsHit st = ∅) ->
  inv (fst (scoreAndReset st)).
Proof.
  intros Hb Hn. unfold scoreAndReset.
  destruct (completed st) eqn:Hc; simpl.
  - split; [intros [=] | split; reflexivity].
  - split; [exact Hb | split; [exact Hn | exact Hc]].
Qed.

Lemma detectFunction_inv st f st' ops :
  detectFunction st f = Some (st', ops) -> inv st -> inv st'.
Proof.
  unfold detectFunction. intros H (Hb & Hn & _).
  destruct (trackFinger (chooseShape st f) f) as [st1|] eqn:Ht; [|discriminate].
  injection H as H. replace st' with (fst (scoreAndReset st1)) by now rewrite H.
  apply scoreAndReset_inv.
  - eapply trackFinger_square_bounded; [exact Ht|]. now apply chooseShape_square_bounded.
  - intros Hnone. pose proof (trackFinger_shape _ _ _ Ht) as Hs.
    revert Ht. unfold trackFinger.
    assert (Hc : checkpointsHit (chooseShape st f) = ∅).
    { unfold chooseShape. destruct (shapeType st) eqn:E; simpl; [|reflexivity].
      rewrite Hs in Hnone. unfold chooseShape in Hnone. rewrite E in Hnone.
      simpl in Hnone. congruence. }
    destruct (hands f) as [|lm ?]; [now intros [= <-]|].
    destruct (lm !! 8%nat); [|discriminate]. intros [= <-]; simpl.
    rewrite Hs in Hnone. now rewrite Hnone.
Qed.

Lemma initial_inv : inv initial.
Proof.
  split; [intros [=] | split; reflexivity].
Qed.

Lemma reachable_inv st : reachable st -> inv st.
Proof.
  induction 1 as [|st f st' ops _ IH Hstep]; [apply initial_inv|].
  eapply detectFunction_inv; eauto.
Qed.

(** One frame on a square that satisfies the invariant: nothing is scored
    and the square stays. *)
Lemma square_frame st f st' ops :
  detectFunction st f = Some (st', ops) -> inv st -> shapeType st = Some square ->
  ops = [] /\ shapeType st' = Some square.
Proof.
  unfold detectFunction. intros H (Hb & Hn & Hc) Hsq.
  destruct (trackFinger (chooseShape st f) f) as [st1|] eqn:Ht; [|discriminate].
  assert (Hch : chooseShape st f = st) by (unfold chooseShape; now rewrite Hsq).
  rewrite Hch in Ht.
  pose proof (trackFinger_shape _ _ _ Ht) as Hs. rewrite Hsq in Hs.
  pose proof (trackFinger_square_bounded _ _ _ Ht Hb Hs) as Hb1.
  assert (Hc1 : completed st1 = false).
  { apply completed_false_iff. pose proof (size_below 12 _ Hb1). lia. }
  unfold scoreAndReset in H. rewrite Hc1 in H. injection H as <- <-. auto.
Qed.

Lemma square_run frames : forall st st' ops,
  run st frames = Some (st', ops) -> inv st -> shapeType st = Some square ->
  ops = [] /\ shapeType st' = Some square /\ inv st'.
Proof.
  unfold run. induction frames as [|f frames IH]; intros st st' ops; simpl.
  - intros [= <- <-]; auto.
  - destruct (detectFunction st f) as [[st1 ops1]|] eqn:Hd; [|discriminate].
    destruct (run_ticks detectFunction st1 frames) as [[st2 ops2]|] eqn:Hr;
      [|discriminate].
    intros [= <- <-] Hinv Hsq.
    destruct (square_frame _ _ _ _ Hd Hinv Hsq) as [-> Hsq1].
    apply (IH _ _ _ Hr); [eapply detectFunction_inv; eauto | exact Hsq1].
Qed.

End WithTrig.

End ShapeTracingFacts.

(** ** ShapeTracing: a hit checkpoint lies on the outline *)

Module ShapeGeometry.

Import ShapeTracing.

(** [lra] does not divide: turn the divisions by constants of the source
    into products. *)
Ltac const_div :=
  unfold Qdiv in *;
  change (/ 2) with (1 # 2) in *; change (/ 4) with (1 # 4) in *.

Lemma square_lt_bound (a b t : Q) :
  0 < t -> a * a + b * b < t * t -> (- t < a /\ a < t) /\ (- t < b /\ b < t).
Proof. intros Ht H. repeat split; nra. Qed.



End ShapeGeometry.

(** ** ShapeTracing: the claims *)

Module ShapeTracingClaims.

Import ShapeTracing ShapeTracingFacts ShapeGeometry.


Section WithTrig.

Context {trig : Trig}.

Implicit Types (st : State) (f : Frame) (hit : gset nat).

(** C1: while a square is the active shape the hit-set only holds indices
    0..11 (the 12 points of [sides], all on the left, top or right side), so
    its size stays below the threshold [Math.floor(16 * 0.9) = 14]; over any
    sequence of frames nothing is scored and the square is never reset. *)
Theorem square_never_completes st :
  reachable st -> shapeType st = Some square ->
  threshold = 14%Z
  /\ (forall cx cy size,
        length (sides cx cy size) = 12%nat
        /\ forall p, p ∈ sides cx cy size ->
             px p = cx - size / 2 \/ py p = cy - size / 2 \/ px p = cx + size / 2)
  /\ (forall i, i ∈ checkpointsHit st -> (i < 12)%nat)
  /\ (Z.of_nat (size (checkpointsHit st)) < threshold)%Z
  /\ forall frames st' ops,
       run st frames = Some (st', ops) ->
       ops = [] /\ shapeType st' = Some square
       /\ (forall i, i ∈ checkpointsHit st' -> (i < 12)%nat)
       /\ (Z.of_nat (size (checkpointsHit st')) < threshold)%Z.
Proof.
  intros Hreach Hsq. pose proof (reachable_inv _ Hreach) as Hinv.
  assert (Hsmall : forall s : State, inv s -> shapeType s = Some square ->
            (forall i, i ∈ checkpointsHit s -> (i < 12)%nat)
            /\ (Z.of_nat (size (checkpointsHit s)) < threshold)%Z).
  { intros s (Hb & _ & _) Hs. split; [now apply Hb|].
    pose proof (size_below 12 _ (Hb Hs)). rewrite threshold_value. lia. }
  split; [reflexivity|]. split.
  { intros cx cy sz. split; [reflexivity|]. intros p Hp. unfold sides in Hp.
    repeat (apply elem_of_cons in Hp as [-> | Hp]; [simpl; auto|]).
    now apply elem_of_nil in Hp. }
  destruct (Hsmall _ Hinv Hsq) as [H1 H2]. split; [exact H1|]. split; [exact H2|].
  intros frames st' ops Hrun.
  destruct (square_run _ _ _ _ Hrun Hinv Hsq) as (-> & Hsq' & Hinv').
  destruct (Hsmall _ Hinv' Hsq') as [H3 H4]. auto.
Qed.

(** The frame scores exactly when, after the fingertip has been tracked, at
    least 14 checkpoints are in the hit-set. *)
Lemma detectFunction_threshold st f :
  detectFunction st f
  = (fun st1 => if (14 <=? size (checkpointsHit st1))%nat
                then (initial, [IncScore]) else (st1, []))
    <$> trackFinger (chooseShape st f) f.
Proof.
  unfold detectFunction. destruct (trackFinger (chooseShape st f) f) as [st1|]; [|reflexivity].
  unfold fmap, option_fmap, option_map. f_equal. unfold scoreAndReset.
  destruct (completed st1) eqn:Hc.
  - destruct (Nat.leb_spec 14 (size (checkpointsHit st1))) as [_ | Hlt]; [reflexivity|].
    apply completed_false_iff in Hlt. congruence.
  - apply completed_false_iff in Hc.
    destruct (Nat.leb_spec 14 (size (checkpointsHit st1))); [lia | reflexivity].
Qed.

(** The hit tests only add the checkpoints the fingertip is near. *)
Lemma checkCircleHit_union cx cy r tipX tipY hit :
  checkCircleHit cx cy r tipX tipY hit = checkCircleHit cx cy r tipX tipY ∅ ∪ hit.
Proof.
  apply set_eq. intros i.
  rewrite elem_of_union, !elem_of_checkCircleHit, elem_of_empty. tauto.
Qed.

Lemma checkSquareHit_union cx cy size tipX tipY hit :
  checkSquareHit cx cy size tipX tipY hit = checkSquareHit cx cy size tipX tipY ∅ ∪ hit.
Proof.
  apply set_eq. intros i.
  rewrite elem_of_union, !elem_of_checkSquareHit, elem_of_empty. tauto.
Qed.

(** C10: recording hits is idempotent. The step of the loop for a
    checkpoint that is already in the hit-set leaves the set as it is; when
    every checkpoint the fingertip is within tolerance of is already in the
    hit-set, the hit test of either shape returns the same set, hence the
    same size; and testing the same fingertip twice gives what testing it
    once gives. *)
Theorem checkpoint_hits_idempotent cx cy r tipX tipY hit :
  (forall i, i ∈ hit ->
     (if near (circleCheckpoint cx cy r i) tipX tipY then {[ i ]} ∪ hit else hit) = hit)
  /\ (checkCircleHit cx cy r tipX tipY ∅ ⊆ hit ->
     checkCircleHit cx cy r tipX tipY hit = hit
     /\ size (checkCircleHit cx cy r tipX tipY hit) = size hit)
  /\ (checkSquareHit cx cy r tipX tipY ∅ ⊆ hit ->
     checkSquareHit cx cy r tipX tipY hit = hit
     /\ size (checkSquareHit cx cy r tipX tipY hit) = size hit)
  /\ checkCircleHit cx cy r tipX tipY (checkCircleHit cx cy r tipX tipY hit)
     = checkCircleHit cx cy r tipX tipY hit
  /\ checkSquareHit cx cy r tipX tipY (checkSquareHit cx cy r tipX tipY hit)
     = checkSquareHit cx cy r tipX tipY hit.
Proof.
  assert (Hc : checkCircleHit cx cy r tipX tipY ∅ ⊆ hit ->
               checkCircleHit cx cy r tipX tipY hit = hit).
  { intros Hsub. rewrite checkCircleHit_union. now apply subseteq_union_1_L. }
  assert (Hs : checkSquareHit cx cy r tipX tipY ∅ ⊆ hit ->
               checkSquareHit cx cy r tipX tipY hit = hit).
  { intros Hsub. rewrite checkSquareHit_union. now apply subseteq_union_1_L. }
  split.
  { intros i Hi. destruct (near _ _ _); [|reflexivity].
    apply subseteq_union_1_L. now apply singleton_subseteq_l. }
  split; [intros H; split; [auto | now rewrite Hc]|].
  split; [intros H; split; [auto | now rewrite Hs]|].
  split.
  - rewrite (checkCircleHit_union _ _ _ _ _ (checkCircleHit _ _ _ _ _ hit)).
    apply subseteq_union_1_L. rewrite (checkCircleHit_union _ _ _ _ _ hit).
    apply union_subseteq_l.
  - rewrite (checkSquareHit_union _ _ _ _ _ (checkSquareHit _ _ _ _ _ hit)).
    apply subseteq_union_1_L. rewrite (checkSquareHit_union _ _ _ _ _ hit).
    apply union_subseteq_l.
Qed.



End WithTrig.

Lemma square_never_completes_witness :
  reachable (trig := Examples.table_trig) Examples.fresh_square
  /\ forall frames st' ops,
       run (trig := Examples.table_trig) Examples.fresh_square frames = Some (st', ops) ->
       ops = [] /\ shapeType st' = Some square.
Proof.
  assert (Hr : reachable (trig := Examples.table_trig) Examples.fresh_square).
  { apply (reach_step initial (Examples.empty_frame 0 (1 # 2)) _ []).
    - apply reach_initial.
    - reflexivity. }
  split; [exact Hr|]. intros frames st' ops Hrun.
  destruct (square_never_completes (trig := Examples.table_trig)
              Examples.fresh_square Hr eq_refl) as (_ & _ & _ & _ & H).
  destruct (H frames st' ops Hrun) as (H1 & H2 & _). auto.
Defined.

(** C2 on the code: on a 640 x 480 canvas, with the fingertip moved from one
    checkpoint of the circle to the next, the first 13 frames score nothing
    and hit 13 checkpoints; the 14th frame already scores and resets the
    shape. The threshold of the code is [Math.floor(16 * 0.9) = 14], not
    [ceil(16 * 0.9) = 15]. *)
Theorem circle_sweep_scores_at_fourteen :
  threshold = 14%Z
  /\ (forall (trig : Trig) st f,
        detectFunction st f
        = (fun st1 => if (14 <=? size (checkpointsHit st1))%nat
                      then (initial, [IncScore]) else (st1, []))
          <$> trackFinger (chooseShape st f) f)
  /\ snd <$> run (trig := Examples.table_trig) initial (Examples.sweep 13) = Some []
  /\ (fun r => size (checkpointsHit (fst r)))
       <$> run (trig := Examples.table_trig) initial (Examples.sweep 13) = Some 13%nat
  /\ run (trig := Examples.table_trig) initial (Examples.sweep 14)
     = Some (initial, [IncScore]).
Proof.
  split; [reflexivity|]. split; [intros; apply detectFunction_threshold|].
  repeat split; vm_compute; reflexivity.
Qed.

Lemma checkpoint_hits_idempotent_witness :
  let hit : gset nat := {[ 0%nat ]} in
  checkCircleHit (trig := Examples.table_trig) 320 240 144 464 240 ∅ ⊆ hit
  /\ size (checkCircleHit (trig := Examples.table_trig) 320 240 144 464 240 hit) = 1%nat
  /\ checkSquareHit 320 240 288 176 96 ∅ ⊆ {[ 0%nat; 4%nat ]}
  /\ size (checkSquareHit 320 240 288 176 96 {[ 0%nat; 4%nat ]}) = 2%nat.
Proof.
  intros hit.
  assert (H1 : checkCircleHit (trig := Examples.table_trig) 320 240 144 464 240 ∅ ⊆ hit).
  { apply (bool_decide_unpack _). vm_compute. exact I. }
  assert (H2 : checkSquareHit 320 240 288 176 96 ∅ ⊆ ({[ 0%nat; 4%nat ]} : gset nat)).
  { apply (bool_decide_unpack _). vm_compute. exact I. }
  pose proof (checkpoint_hits_idempotent (trig := Examples.table_trig)
                320 240 144 464 240 hit) as (_ & Hc & _).
  pose proof (checkpoint_hits_idempotent (trig := Examples.table_trig)
                320 240 288 176 96 {[ 0%nat; 4%nat ]}) as (_ & _ & Hs & _).
  destruct (Hc H1) as [_ Hc2]. destruct (Hs H2) as [_ Hs2].
  split; [exact H1|]. split; [exact Hc2|]. split; [exact H2 | exact Hs2].
Defined.


End ShapeTracingClaims.

(** ** The gesture predicates *)

Module GestureFacts.

Lemma oand_true (a b : obool) :
  a &&? b = Some true <-> a = Some true /\ b = Some true.
Proof.
  destruct a as [[|]|]; simpl; split; try tauto; try (intros [? ?]; discriminate);
    discriminate.
Qed.

(** No point is above the upper line and below the lower line. *)
Lemma up_down_exclusive (lo hi : Q) (tip : option point) :
  lo <= hi ->
  on_point (fun t => JS.lt (py t) lo) tip = Some true ->
  on_point (fun t => JS.gt (py t) hi) tip = Some true -> False.
Proof.
  intros Hle. destruct tip as [t|]; simpl; [|discriminate].
  intros [= H1] [= H2]. apply JSFacts.lt_iff in H1. apply JSFacts.gt_iff in H2. lra.
Qed.

(** Splits the hypotheses [e = Some true] on conjunctions of finger
    tests. *)
Ltac split_tests :=
  repeat match goal with
         | H : _ &&? _ = Some true |- _ => apply oand_true in H as [? ?]
         end.

(** Two rules that hold of the same fingers are the same rule, or the two
    rules for a closed hand. *)
Lemma fingers_exclusive (lo hi : Q) lm g1 g2 :
  lo <= hi ->
  fingers (on_point (fun t => JS.lt (py t) lo)) (on_point (fun t => JS.gt (py t) hi)) lm g1 ->
  fingers (on_point (fun t => JS.lt (py t) lo)) (on_point (fun t => JS.gt (py t) hi)) lm g2 ->
  g1 = g2 \/ (g1 = thumbs_up /\ g2 = fist) \/ (g1 = fist /\ g2 = thumbs_up).
Proof.
  intros Hle H1 H2.
  destruct g1, g2; auto; exfalso;
    destruct H1 as (A1 & A2 & A3 & A4); destruct H2 as (B1 & B2 & B3 & B4);
    eauto using up_down_exclusive.
Qed.

(** What [checkGesture] returns [true] for, read off the source: the
    selected rule evaluated to [true]. *)
Lemma memory_rule lm g :
  MemoryMatch.checkGesture lm (Some g) = Some true ->
  exists palm, lm !! 0%nat = Some palm /\
    fingers (on_point (fun t => JS.lt (py t) (py palm - 0.05)))
            (on_point (fun t => JS.gt (py t) (py palm + 0.05))) lm g.
Proof.
  unfold MemoryMatch.checkGesture. destruct (lm !! 0%nat) as [palm|]; [|discriminate].
  cbv zeta. intros H. exists palm. split; [reflexivity|].
  apply bind_Some in H as (b1 & E1 & H). apply bind_Some in H as (b2 & E2 & H).
  apply bind_Some in H as (b3 & E3 & H). apply bind_Some in H as (b4 & E4 & H).
  apply bind_Some in H as (b5 & E5 & H). injection H as H.
  destruct g; subst; split_tests; unfold fingers; auto.
Qed.

Lemma simon_lo_hi acc mcp : SimonSays.lowLine acc mcp <= SimonSays.highLine acc mcp.
Proof.
  unfold SimonSays.lowLine, SimonSays.highLine. pose proof (Qabs_nonneg (py mcp - py acc / 6)).
  lra.
Qed.

Lemma simon_rule lm g :
  SimonSays.checkGesture lm (Some g) = Some true ->
  exists acc mcp, SimonSays.palmSum lm = Some acc /\ lm !! 9%nat = Some mcp /\
    let up := on_point (fun t => JS.lt (py t) (SimonSays.lowLine acc mcp)) in
    let dn := on_point (fun t => JS.gt (py t) (SimonSays.highLine acc mcp)) in
    fingers up dn lm g /\ simon_thumb up dn lm g.
Proof.
  unfold SimonSays.checkGesture.
  destruct (SimonSays.palmSum lm) as [acc|]; [|discriminate].
  destruct (lm !! 9%nat) as [mcp|]; [|discriminate].
  cbv zeta. intros H. exists acc, mcp. split; [reflexivity|]. split; [reflexivity|].
  apply bind_Some in H as (b1 & E1 & H). apply bind_Some in H as (b2 & E2 & H).
  apply bind_Some in H as (b3 & E3 & H). apply bind_Some in H as (b4 & E4 & H).
  apply bind_Some in H as (b5 & E5 & H). injection H as H.
  destruct g; subst; split_tests; unfold fingers, simon_thumb, SimonSays.lowLine, SimonSays.highLine;
    auto 10.
Qed.

End GestureFacts.

(** ** The gesture predicates: the claim *)

Module GestureClaims.

Import GestureFacts.

(** C7, as the code has it: in SimonSays no hand satisfies the rules of two
    different gestures; in MemoryMatch the same holds for every pair of
    gestures but thumbs-up and fist, whose rules share the four folded
    fingers and test the thumb against different references. *)
Theorem rules_exclusive_up_to_thumb lm g1 g2 :
  (SimonSays.checkGesture lm (Some g1) = Some true ->
   SimonSays.checkGesture lm (Some g2) = Some true -> g1 = g2)
  /\ (MemoryMatch.checkGesture lm (Some g1) = Some true ->
      MemoryMatch.checkGesture lm (Some g2) = Some true ->
      g1 = g2 \/ (g1 = thumbs_up /\ g2 = fist) \/ (g1 = fist /\ g2 = thumbs_up)).
Proof.
  split.
  - intros H1 H2.
    apply simon_rule in H1 as (acc & mcp & Ha & Hm & F1 & T1).
    apply simon_rule in H2 as (acc' & mcp' & Ha' & Hm' & F2 & T2).
    rewrite Ha in Ha'. rewrite Hm in Hm'. injection Ha' as <-. injection Hm' as <-.
    pose proof (simon_lo_hi acc mcp) as Hle.
    destruct (fingers_exclusive _ _ _ _ _ Hle F1 F2) as [E | [[-> ->] | [-> ->]]];
      [exact E | exfalso | exfalso]; simpl in T1, T2;
      eauto using up_down_exclusive.
  - intros H1 H2.
    apply memory_rule in H1 as (palm & Hp & F1).
    apply memory_rule in H2 as (palm' & Hp' & F2).
    rewrite Hp in Hp'. injection Hp' as <-.
    apply (fingers_exclusive (py palm - 0.05) (py palm + 0.05) lm); auto.
    lra.
Qed.

Lemma rules_exclusive_up_to_thumb_witness :
  SimonSays.checkGesture Examples.closed_fist (Some fist) = Some true
  /\ MemoryMatch.checkGesture Examples.thumb_out_fist (Some thumbs_up) = Some true
  /\ MemoryMatch.checkGesture Examples.thumb_out_fist (Some fist) = Some true
  /\ fist = fist
  /\ (thumbs_up = fist \/ (thumbs_up = thumbs_up /\ fist = fist)
      \/ (thumbs_up = fist /\ fist = thumbs_up)).
Proof.
  assert (H1 : SimonSays.checkGesture Examples.closed_fist (Some fist) = Some true)
    by (vm_compute; reflexivity).
  assert (H2 : MemoryMatch.checkGesture Examples.thumb_out_fist (Some thumbs_up) = Some true)
    by (vm_compute; reflexivity).
  assert (H3 : MemoryMatch.checkGesture Examples.thumb_out_fist (Some fist) = Some true)
    by (vm_compute; reflexivity).
  split; [exact H1|]. split; [exact H2|]. split; [exact H3|]. split.
  - exact (proj1 (rules_exclusive_up_to_thumb Examples.closed_fist fist fist) H1 H1).
  - exact (proj2 (rules_exclusive_up_to_thumb Examples.thumb_out_fist thumbs_up fist) H2 H3).
Defined.

(** C7 as stated fails on MemoryMatch: a 21-landmark hand satisfies both the
    thumbs-up rule and the fist rule. *)
Lemma thumbs_up_and_fist_overlap :
  ~ (forall lm g1 g2,
       length lm = 21%nat ->
       MemoryMatch.checkGesture lm (Some g1) = Some true ->
       MemoryMatch.checkGesture lm (Some g2) = Some true -> g1 = g2).
Proof.
  intros H.
  assert (E : thumbs_up = fist).
  { apply (H Examples.thumb_out_fist); [reflexivity | |]; vm_compute; reflexivity. }
  discriminate E.
Qed.

End GestureClaims.

(** ** MemoryMatch *)

Module MemoryMatchClaims.

Import MemoryMatch.

Implicit Types (st : State) (f : Frame).

Lemma startRound_two st f :
  two_or_none st -> length (currentSequence (startRound st f)) = 2%nat.
Proof.
  unfold startRound. intros [H | H].
  - rewrite H. reflexivity.
  - rewrite H. simpl. now destruct (expired st f).
Qed.

Lemma matchHand_sequence st f st' ops :
  matchHand st f = Some (st', ops) ->
  (ops = [] /\ currentSequence st' = currentSequence st
   /\ (currentStep st' = currentStep st
       \/ (currentStep st' = S (currentStep st)
           /\ (currentStep st' < length (currentSequence st))%nat)))
  \/ (ops = [IncScore] /\ currentSequence st' = [] /\ currentStep st' = 0%nat
      /\ (length (currentSequence st) <= S (currentStep st))%nat).
Proof.
  unfold matchHand. destruct (hands f) as [|lm ?].
  - intros [= <- <-]. left. auto.
  - destruct (checkGesture lm _) as [[|]|]; [| |discriminate].
    + destruct (Nat.leb_spec (length (currentSequence st)) (S (currentStep st))).
      * intros [= <- <-]. right. auto.
      * intros [= <- <-]. left. simpl. auto.
    + intros [= <- <-]. left. auto.
Qed.

Lemma detectFunction_two st f st' ops :
  detectFunction st f = Some (st', ops) -> two_or_none st -> two_or_none st'.
Proof.
  unfold detectFunction. intros H Hinv.
  pose proof (startRound_two st f Hinv) as H2.
  apply matchHand_sequence in H as [(_ & Hs & _) | (_ & Hs & _)].
  - right. congruence.
  - now left.
Qed.

Lemma run_two frames : forall st st' ops,
  run_ticks detectFunction st frames = Some (st', ops) ->
  two_or_none st -> two_or_none st'.
Proof.
  induction frames as [|f frames IH]; intros st st' ops; simpl.
  - now intros [= <- <-].
  - destruct (detectFunction st f) as [[st1 ops1]|] eqn:Hd; [|discriminate].
    destruct (run_ticks detectFunction st1 frames) as [[st2 ops2]|] eqn:Hr;
      [|discriminate].
    intros [= <- <-] Hinv. eapply IH; [exact Hr|]. eapply detectFunction_two; eauto.
Qed.

(** C5 on the code: in any game, when a frame completes the sequence (it
    scores), the completed sequence has two gestures, the sequence is
    emptied, and the round the next frame starts has two gestures again: the
    sequence does not grow. *)
Theorem completed_round_restarts_with_two t0 frames ops0 st f st' f' st'' ops' :
  run_ticks detectFunction (initial t0) frames = Some (st, ops0) ->
  detectFunction st f = Some (st', [IncScore]) ->
  detectFunction st' f' = Some (st'', ops') ->
  length (currentSequence (startRound st f)) = 2%nat
  /\ currentSequence st' = []
  /\ length (currentSequence st'') = 2%nat
  /\ ops' = [].
Proof.
  intros Hrun Hdone Hnext.
  assert (Hinv : two_or_none st).
  { eapply run_two; [exact Hrun|]. now left. }
  split; [now apply startRound_two|].
  unfold detectFunction in Hdone.
  apply matchHand_sequence in Hdone as [([=] & _) | (_ & Hs & Hc & _)].
  split; [exact Hs|].
  unfold detectFunction in Hnext.
  assert (Hstart : startRound st' f'
                   = MkState [randomGesture (rand f' 0); randomGesture (rand f' 1)]
                       0 (now f')).
  { unfold startRound. now rewrite Hs. }
  rewrite Hstart in Hnext.
  apply matchHand_sequence in Hnext as [(-> & -> & _) | (_ & _ & _ & Hlen)].
  - auto.
  - simpl in Hlen. lia.
Qed.

Lemma completed_round_restarts_with_two_witness :
  let f1 := Examples.hand_frame 100 Examples.thumb_out_fist 0.9 in
  let f2 := Examples.hand_frame 116 Examples.thumb_out_fist 0.9 in
  let f3 := Examples.hand_frame 132 Examples.thumb_out_fist 0.1 in
  let st := MkState [Some fist; Some fist] 1 100 in
  let st' := MkState [] 0 100 in
  let st'' := MkState [Some open; Some open] 0 132 in
  run_ticks detectFunction (initial 0) [f1] = Some (st, [])
  /\ detectFunction st f2 = Some (st', [IncScore])
  /\ detectFunction st' f3 = Some (st'', [])
  /\ length (currentSequence st'') = 2%nat.
Proof.
  intros f1 f2 f3 st st' st''.
  assert (H1 : run_ticks detectFunction (initial 0) [f1] = Some (st, []))
    by (vm_compute; reflexivity).
  assert (H2 : detectFunction st f2 = Some (st', [IncScore]))
    by (vm_compute; reflexivity).
  assert (H3 : detectFunction st' f3 = Some (st'', []))
    by (vm_compute; reflexivity).
  split; [exact H1|]. split; [exact H2|]. split; [exact H3|].
  exact (proj1 (proj2 (proj2
           (completed_round_restarts_with_two 0 [f1] [] st f2 st' f3 st'' [] H1 H2 H3)))).
Defined.

End MemoryMatchClaims.

(** ** SwipeChallenge *)

Module SwipeChallengeClaims.

Import SwipeChallenge.

Implicit Types (st : State) (f : Frame).




End SwipeChallengeClaims.

(** ** BallGame: the debounce *)

Module BallGameClaims.

Import BallGame.

Implicit Types (st : State) (f : Frame).

(** The [forEach] over the balls only ever appends to the scheduled
    callbacks, and leaves the phase alone. *)
Lemma touch_timeouts f tipX tipY (bs : list point) :
  forall (k : nat) (acc : State * bool),
    exists extra,
      timeouts (fst (JS.forEach (touchBall f tipX tipY) bs k acc))
      = timeouts (fst acc) ++ extra.
Proof.
  induction bs as [|b bs IH]; intros k acc; simpl.
  - exists []. now rewrite app_nil_r.
  - destruct (IH (S k) (touchBall f tipX tipY acc b k)) as [extra ->].
    destruct acc as [st touching]. unfold touchBall.
    destruct (JS.hypot_lt _ _ _); [destruct (not_tapped _)|]; simpl.
    + exists ((now f + FEEDBACK_TIME)%Z :: extra). now rewrite <- app_assoc.
    + now exists extra.
    + now exists extra.
Qed.

Lemma initPhase_other st f :
  gameState st <> init -> initPhase st f = (st, []).
Proof. intros H. unfold initPhase. now rewrite bool_decide_eq_false_2. Qed.

Lemma showPhase_other st f :
  gameState st <> show -> showPhase st f = st.
Proof. intros H. unfold showPhase. now rewrite bool_decide_eq_false_2. Qed.

(** C4 on the code: in the Input phase, with the touch on ball 0 registered
    ([tappedIdx] is 0) and the fingertip still on ball 0, the frame
    schedules one more feedback callback on top of those pending: index 0
    is falsy, so the guard [!tappedIdxRef.current] does not see the
    touch. *)
Theorem ball_zero_touch_rescheduled st f lm others tip b0 bs :
  gameState st = input ->
  tappedIdx st = Some 0%nat ->
  balls st = b0 :: bs ->
  hands f = lm :: others -> lm !! 8%nat = Some tip ->
  JS.hypot_lt (px b0 - px tip * width f) (py b0 - py tip * height f) BALL_RADIUS = true ->
  exists st' extra,
    detectFunction st f = Some (st', [])
    /\ timeouts st' = timeouts st ++ (now f + FEEDBACK_TIME)%Z :: extra.
Proof.
  intros Hphase Htap Hballs Hhands Htip Hnear.
  unfold detectFunction.
  rewrite initPhase_other, showPhase_other by (rewrite Hphase; discriminate).
  unfold inputPhase. rewrite Hphase, Hhands, Htip, Hballs.
  rewrite bool_decide_eq_true_2 by reflexivity.
  cbn [JS.forEach]. unfold touchBall at 2. rewrite Hnear, Htap. cbn [not_tapped].
  match goal with
  | |- context [JS.forEach ?body bs 1%nat ?acc] =>
      destruct (touch_timeouts f (px tip * width f) (py tip * height f) bs 1%nat acc)
        as [extra Hextra];
      destruct (JS.forEach body bs 1%nat acc) as [st1 touching]
  end.
  simpl in Hextra.
  destruct (negb touching && JS.is_null (feedback st1)); eexists; exists extra;
    (split; [reflexivity|]); simpl; rewrite Hextra, <- app_assoc; reflexivity.
Qed.

Lemma ball_zero_touch_rescheduled_witness :
  exists st st' extra,
    run initial (firstn 3 Examples.resting_touch) = Some (st, [SetScore 0])
    /\ timeouts st = [1800%Z]
    /\ detectFunction st (Examples.ball_touch_frame 1316) = Some (st', [])
    /\ timeouts st' = timeouts st ++ (1316 + FEEDBACK_TIME)%Z :: extra.
Proof.
  destruct (run initial (firstn 3 Examples.resting_touch)) as [[st ops]|] eqn:Hrun;
    [|vm_compute in Hrun; discriminate].
  assert (Hops : ops = [SetScore 0]).
  { vm_compute in Hrun. injection Hrun as _ <-. reflexivity. }
  assert (Hphase : gameState st = input).
  { vm_compute in Hrun. injection Hrun as <- _. reflexivity. }
  assert (Htap : tappedIdx st = Some 0%nat).
  { vm_compute in Hrun. injection Hrun as <- _. reflexivity. }
  assert (Hballs : balls st = hd (Point 0 0) (balls st) :: tl (balls st)).
  { vm_compute in Hrun. injection Hrun as <- _. reflexivity. }
  assert (Htime : timeouts st = [1800%Z]).
  { vm_compute in Hrun. injection Hrun as <- _. reflexivity. }
  assert (Hnear : JS.hypot_lt
            (px (hd (Point 0 0) (balls st))
             - px (Point (100 / 640) (100 / 480)) * width (Examples.ball_touch_frame 1316))
            (py (hd (Point 0 0) (balls st))
             - py (Point (100 / 640) (100 / 480)) * height (Examples.ball_touch_frame 1316))
            BALL_RADIUS = true).
  { vm_compute in Hrun. injection Hrun as <- _. vm_compute. reflexivity. }
  destruct (ball_zero_touch_rescheduled st (Examples.ball_touch_frame 1316)
              _ [] _ _ _ Hphase Htap Hballs eq_refl eq_refl Hnear)
    as (st' & extra & Hstep & Hnew).
  exists st, st', extra. subst ops. auto.
Defined.

(** The same on a whole run: from the start of the game, a fingertip that comes to
    rest on ball 0 for two frames leaves two callbacks pending, and the two
    callbacks score twice for the one touch; resting on ball 1 leaves
    one. *)
Lemma resting_touch_runs :
  (fun r => timeouts (fst r)) <$> run initial Examples.resting_touch
  = Some [1800%Z; 1816%Z]
  /\ snd <$> run initial Examples.resting_touch_feedback
     = Some [SetScore 0; IncScore; IncScore]
  /\ (fun r => timeouts (fst r)) <$> run initial Examples.resting_touch_other
     = Some [1800%Z].
Proof. repeat split; vm_compute; reflexivity. Qed.

End BallGameClaims.

(** ** All six games: the score and the frames without a hand *)

Module SessionClaims.

(** Ops that are all increments never lower the score. *)
Lemma increments_monotone (ops : list ScoreOp) :
  forall score : Z, Forall (eq IncScore) ops -> (score <= apply_ops score ops)%Z.
Proof.
  unfold apply_ops. induction ops as [|op ops IH]; intros score H; simpl; [lia|].
  inversion H as [|? ? <- Hrest]; subst. specialize (IH (score + 1)%Z Hrest).
  simpl. lia.
Qed.

Lemma quick_ops st f :
  Forall (eq IncScore) (emitted (QuickReaction.detectFunction st f)).
Proof.
  unfold QuickReaction.detectFunction, QuickReaction.checkTap.
  destruct (hands f) as [|lm ?]; simpl; [constructor|].
  destruct (lm !! 8%nat); simpl; [|constructor].
  destruct (QuickReaction.target _); simpl; [|constructor].
  destruct (JS.hypot_lt _ _ _); simpl; repeat constructor.
Qed.

Lemma shape_ops {trig : Trig} st f :
  Forall (eq IncScore) (emitted (ShapeTracing.detectFunction st f)).
Proof.
  unfold ShapeTracing.detectFunction, ShapeTracing.scoreAndReset.
  destruct (ShapeTracing.trackFinger _ f) as [st1|]; simpl; [|constructor].
  destruct (ShapeTracing.completed st1); simpl; repeat constructor.
Qed.

Lemma memory_ops st f :
  Forall (eq IncScore) (emitted (MemoryMatch.detectFunction st f)).
Proof.
  unfold MemoryMatch.detectFunction.
  destruct (MemoryMatch.matchHand _ f) as [[st' ops]|] eqn:H; simpl; [|constructor].
  apply MemoryMatchClaims.matchHand_sequence in H as [(-> & _) | (-> & _)];
    repeat constructor.
Qed.

Lemma swipe_ops st f :
  Forall (eq IncScore) (emitted (SwipeChallenge.detectFunction st f)).
Proof.
  unfold SwipeChallenge.detectFunction, SwipeChallenge.trackSwipe.
  destruct (hands f) as [|lm ?]; simpl; [constructor|].
  destruct (lm !! 8%nat); simpl; [|constructor].
  destruct (SwipeChallenge.swipeStart _); simpl; [|constructor].
  destruct (JS.hypot_gt _ _ _); simpl; [|constructor].
  destruct (bool_decide _); repeat constructor.
Qed.

Lemma simon_ops st f :
  Forall (eq IncScore) (emitted (SimonSays.detectFunction st f)).
Proof.
  unfold SimonSays.detectFunction.
  destruct (hands f) as [|lm ?]; simpl; [constructor|].
  destruct (if JS.gt _ 0 then _ else _) as [[|]|]; simpl; repeat constructor.
Qed.

(** A BallGame frame in the Init phase does not reach the Input phase, so
    it cannot throw; the only op of a frame is the [setScore(0)] of Init. *)
Lemma ball_ops st f :
  emitted (BallGame.detectFunction st f)
  = if bool_decide (BallGame.gameState st = BallGame.init)
    then [SetScore 0] else [].
Proof.
  unfold BallGame.detectFunction, BallGame.initPhase.
  destruct (bool_decide (BallGame.gameState st = BallGame.init)) eqn:Hinit.
  - unfold BallGame.showPhase. simpl.
    rewrite Z.sub_diag. simpl. reflexivity.
  - destruct (BallGame.inputPhase _ f); reflexivity.
Qed.

Lemma ball_timeout_ops st t r :
  Forall (eq IncScore) (snd (BallGame.feedbackTimeout st t r)).
Proof.
  unfold BallGame.feedbackTimeout.
  destruct (bool_decide _); [simpl; constructor|].
  destruct (Nat.eqb _ _); simpl; repeat constructor.
Qed.

(** C3, as the code has it: five of the six games only ever emit
    increments, and so do the feedback callbacks of BallGame, so their
    score never decreases; a BallGame frame emits [setScore(0)] exactly when
    it starts in the Init phase (the first frame, and the frame after each
    wrong tap), and nothing otherwise. *)
Theorem score_only_reset_by_ball_init :
  (forall st f, Forall (eq IncScore) (emitted (QuickReaction.detectFunction st f)))
  /\ (forall (trig : Trig) st f,
        Forall (eq IncScore) (emitted (ShapeTracing.detectFunction st f)))
  /\ (forall st f, Forall (eq IncScore) (emitted (MemoryMatch.detectFunction st f)))
  /\ (forall st f, Forall (eq IncScore) (emitted (SwipeChallenge.detectFunction st f)))
  /\ (forall st f, Forall (eq IncScore) (emitted (SimonSays.detectFunction st f)))
  /\ (forall st t r, Forall (eq IncScore) (snd (BallGame.feedbackTimeout st t r)))
  /\ (forall st f,
        emitted (BallGame.detectFunction st f)
        = if bool_decide (BallGame.gameState st = BallGame.init)
          then [SetScore 0] else [])
  /\ (forall ops score, Forall (eq IncScore) ops -> (score <= apply_ops score ops)%Z).
Proof.
  split; [exact quick_ops|]. split; [exact @shape_ops|]. split; [exact memory_ops|].
  split; [exact swipe_ops|]. split; [exact simon_ops|]. split; [exact ball_timeout_ops|].
  split; [exact ball_ops | exact increments_monotone].
Qed.

Lemma score_only_reset_by_ball_init_witness :
  (3 <= apply_ops 3 [IncScore; IncScore])%Z.
Proof.
  destruct score_only_reset_by_ball_init as (_ & _ & _ & _ & _ & _ & _ & H).
  apply H. repeat constructor.
Defined.

(** C3 as stated fails: the first frame of BallGame, and every frame that
    starts in the Init phase, sets a score of 3 to 0. *)
Lemma ball_init_resets_score :
  ~ (forall st f score,
       (score <= apply_ops score (emitted (BallGame.detectFunction st f)))%Z).
Proof.
  intros H. specialize (H BallGame.initial Examples.ball_init_frame 3%Z).
  vm_compute in H. apply H. reflexivity.
Qed.

(** C8, as the code has it: a frame without a hand never scores, never adds
    to a hit-set and never advances a cursor; only what the clock drives
    still runs. QuickReaction, SwipeChallenge and SimonSays do their round
    start and nothing else; ShapeTracing (in a state the game can reach)
    keeps its hit-set, and its whole state once a shape is chosen;
    MemoryMatch does its round start, which leaves the cursor alone unless
    it starts a new round (no sequence, or time over) and then resets it to
    0; BallGame does its Init and Show phases ([setScore(0)] in Init), does
    not move the input cursor forward, and changes nothing in the Input
    phase. *)
Theorem frame_without_hand (f : Frame) :
  hands f = [] ->
  (forall st, QuickReaction.detectFunction st f = Some (QuickReaction.spawn st f, []))
  /\ (forall st, SwipeChallenge.detectFunction st f
                 = Some (SwipeChallenge.startRound st f, []))
  /\ (forall st, SimonSays.detectFunction st f = Some (SimonSays.startRound st f, []))
  /\ (forall (trig : Trig) st,
        ShapeTracing.reachable st ->
        exists st',
          ShapeTracing.detectFunction st f = Some (st', [])
          /\ ShapeTracing.checkpointsHit st' = ShapeTracing.checkpointsHit st
          /\ (ShapeTracing.shapeType st <> None -> st' = st))
  /\ (forall st,
        MemoryMatch.detectFunction st f = Some (MemoryMatch.startRound st f, [])
        /\ (MemoryMatch.currentSequence st <> [] ->
            MemoryMatch.expired st f = false ->
            MemoryMatch.startRound st f = st)
        /\ (MemoryMatch.currentStep (MemoryMatch.startRound st f)
            = MemoryMatch.currentStep st
            \/ MemoryMatch.currentStep (MemoryMatch.startRound st f) = 0%nat))
  /\ (forall st,
        exists st',
          BallGame.detectFunction st f
          = Some (st', if bool_decide (BallGame.gameState st = BallGame.init)
                       then [SetScore 0] else [])
          /\ (BallGame.gameState st = BallGame.input -> st' = st)
          /\ (BallGame.inputIndex st' = BallGame.inputIndex st
              \/ BallGame.inputIndex st' = 0%nat)).
Proof.
  intros Hno.
  split. { intros st. unfold QuickReaction.detectFunction, QuickReaction.checkTap.
           now rewrite Hno. }
  split. { intros st. unfold SwipeChallenge.detectFunction, SwipeChallenge.trackSwipe.
           now rewrite Hno. }
  split. { intros st. unfold SimonSays.detectFunction. now rewrite Hno. }
  split.
  { intros trig st Hreach.
    destruct (ShapeTracingFacts.reachable_inv _ Hreach) as (_ & Hnone & Hc).
    unfold ShapeTracing.detectFunction, ShapeTracing.trackFinger. rewrite Hno.
    unfold ShapeTracing.scoreAndReset, ShapeTracing.chooseShape.
    destruct (ShapeTracing.shapeType st) as [s|] eqn:Hs; simpl.
    - rewrite Hc. exists st. auto.
    - eexists. split; [reflexivity|]. simpl. split; [now rewrite Hnone | congruence]. }
  split.
  { intros st. split; [|split].
    - unfold MemoryMatch.detectFunction, MemoryMatch.matchHand. now rewrite Hno.
    - intros Hseq Hexp. unfold MemoryMatch.startRound. rewrite Hexp.
      destruct (MemoryMatch.currentSequence st); [congruence | reflexivity].
    - unfold MemoryMatch.startRound. destruct (_ || _); simpl; auto. }
  intros st. unfold BallGame.detectFunction, BallGame.initPhase.
  destruct (bool_decide (BallGame.gameState st = BallGame.init)) eqn:Hinit.
  - apply bool_decide_eq_true in Hinit.
    unfold BallGame.showPhase, BallGame.inputPhase. simpl. rewrite Z.sub_diag. simpl.
    eexists. split; [reflexivity|]. split; [congruence | simpl; auto].
  - unfold BallGame.inputPhase. rewrite Hno.
    exists (BallGame.showPhase st f). split.
    + cbv beta iota zeta.
      destruct (bool_decide (BallGame.gameState (BallGame.showPhase st f) = BallGame.input));
        reflexivity.
    + split.
      * intros Hin. apply BallGameClaims.showPhase_other. congruence.
      * unfold BallGame.showPhase.
        destruct (bool_decide (BallGame.gameState st = BallGame.show)); [|now left].
        destruct (_ <? _)%Z; [|now left].
        destruct (Nat.leb _ _); simpl; auto.
Qed.

Lemma frame_without_hand_witness :
  hands (Examples.empty_frame 9000 0) = []
  /\ MemoryMatch.detectFunction (MemoryMatch.MkState [Some open; Some two] 1 8500)
       (Examples.empty_frame 9000 0)
     = Some (MemoryMatch.MkState [Some open; Some two] 1 8500, []).
Proof.
  split; [reflexivity|].
  destruct (frame_without_hand (Examples.empty_frame 9000 0) eq_refl)
    as (_ & _ & _ & _ & H & _).
  destruct (H (MemoryMatch.MkState [Some open; Some two] 1 8500)) as (H1 & H2 & _).
  rewrite H1. rewrite H2; [reflexivity | discriminate | reflexivity].
Defined.

(** C8 as stated fails: in MemoryMatch a frame without a hand that comes
    after the round time is over starts a new round and moves the cursor
    from 1 back to 0. *)
Lemma expired_round_resets_cursor :
  ~ (forall st f st' ops,
       hands f = [] ->
       MemoryMatch.detectFunction st f = Some (st', ops) ->
       MemoryMatch.currentStep st' = MemoryMatch.currentStep st).
Proof.
  intros H.
  specialize (H (MemoryMatch.MkState [Some open; Some two] 1 0)
                (Examples.empty_frame 9000 0) _ _ eq_refl eq_refl).
  discriminate H.
Qed.

End SessionClaims.

(** * Further properties of the games *)

(** ** ShapeTracing: the frame loop *)

Module ShapeTracingLoop.

Import ShapeTracing ShapeTracingFacts.

Section WithTrig.

Context {trig : Trig}.

Implicit Types (st : State) (f : Frame) (hit : gset nat).

Lemma completed_initial : completed initial = false.
Proof. reflexivity. Qed.

(** Between frames: fewer than 14 checkpoints are hit and their indices are
    below 16; a round in which tracing has not started has an empty trail;
    and when no shape is active the refs are exactly the initial ones (a
    reset leaves nothing of the finished round behind). *)
Theorem between_frames st :
  reachable st ->
  (size (checkpointsHit st) < 14)%nat
  /\ (forall i, i ∈ checkpointsHit st -> (i < 16)%nat)
  /\ (drawingStarted st = false -> trailPoints st = [])
  /\ (shapeType st = None -> st = initial).
Proof.
  induction 1 as [|st f st' ops _ IH Hstep].
  { split; [now apply completed_false_iff|].
    split; [intros i Hi; now apply not_elem_of_empty in Hi|].
    split; reflexivity. }
  destruct IH as (_ & Hidx & Htrail & Hnone).
  unfold detectFunction in Hstep.
  destruct (trackFinger (chooseShape st f) f) as [st1|] eqn:Ht; [|discriminate].
  injection Hstep as Hstep.
  (* the state after the choice of a shape *)
  assert (H0 : (forall i, i ∈ checkpointsHit (chooseShape st f) -> (i < 16)%nat)
               /\ (drawingStarted (chooseShape st f) = false ->
                   trailPoints (chooseShape st f) = [])
               /\ (shapeType (chooseShape st f) = None -> chooseShape st f = initial)).
  { unfold chooseShape. destruct (shapeType st) as [s|] eqn:Hs; simpl.
    - rewrite Hs. split; [exact Hidx|]. split; [exact Htrail | intros [=]].
    - split; [intros i Hi; now apply not_elem_of_empty in Hi|].
      split; [reflexivity|]. intros ->. reflexivity. }
  revert Ht H0. generalize (chooseShape st f). intros st0 Ht (Hidx0 & Htrail0 & Hnone0).
  (* the state after the fingertip *)
  assert (H1 : (forall i, i ∈ checkpointsHit st1 -> (i < 16)%nat)
               /\ (drawingStarted st1 = false -> trailPoints st1 = [])
               /\ (shapeType st1 = None -> st1 = initial)).
  { revert Ht. unfold trackFinger. destruct (hands f) as [|lm ?].
    { intros [= <-]. auto. }
    destruct (lm !! 8%nat) as [tip|]; [|discriminate]. intros [= <-]; simpl.
    split; [|split].
    - destruct (shapeType st0) as [[|]|]; [| |exact Hidx0].
      + intros i Hi. apply elem_of_checkCircleHit in Hi as [Hi | [Hi _]]; auto.
      + intros i Hi. apply elem_of_checkSquareHit in Hi as [Hi | (p & Hp & _)]; [auto|].
        apply lookup_lt_Some in Hp. rewrite sides_length in Hp. lia.
    - destruct (drawingStarted st0); [discriminate|]. intros ->. now apply Htrail0.
    - intros Hs. rewrite (Hnone0 Hs). reflexivity. }
  destruct H1 as (Hidx1 & Htrail1 & Hnone1).
  unfold scoreAndReset in Hstep. destruct (completed st1) eqn:Hc.
  - injection Hstep as <- _.
    split; [now apply completed_false_iff|].
    split; [intros i Hi; now apply not_elem_of_empty in Hi|].
    split; reflexivity.
  - injection Hstep as <- _. apply completed_false_iff in Hc. auto.
Qed.

(** A frame on an active shape either completes it (one increment, and the
    refs are the initial ones again) or keeps the shape, every checkpoint
    already hit, the trail recorded so far and the fact that tracing has
    started: until the reset, progress is never lost. *)
Theorem progress_kept st f st' ops s :
  shapeType st = Some s ->
  detectFunction st f = Some (st', ops) ->
  (ops = [IncScore] /\ st' = initial)
  \/ (ops = [] /\ shapeType st' = Some s
      /\ checkpointsHit st ⊆ checkpointsHit st'
      /\ trailPoints st `prefix_of` trailPoints st'
      /\ (drawingStarted st = true -> drawingStarted st' = true)).
Proof.
  intros Hs Hstep. unfold detectFunction in Hstep.
  assert (Hch : chooseShape st f = st) by (unfold chooseShape; now rewrite Hs).
  rewrite Hch in Hstep.
  destruct (trackFinger st f) as [st1|] eqn:Ht; [|discriminate].
  injection Hstep as Hstep. unfold scoreAndReset in Hstep.
  destruct (completed st1); injection Hstep as <- <-; [now left | right].
  split; [reflexivity|]. revert Ht. unfold trackFinger.
  destruct (hands f) as [|lm ?]; [intros [= <-]; auto|].
  destruct (lm !! 8%nat) as [tip|]; [|discriminate]. intros [= <-]; simpl.
  split; [exact Hs|]. split; [|split].
  - rewrite Hs. destruct s.
    + intros i Hi. apply elem_of_checkCircleHit. now left.
    + intros i Hi. apply elem_of_checkSquareHit. now left.
  - destruct (if drawingStarted st then true else _); [now apply prefix_app_r | reflexivity].
  - now intros ->.
Qed.

(** While tracing, a frame with a fingertip that does not complete the
    shape appends exactly one point to the trail: the fingertip in canvas
    pixels with the time of the frame. *)
Theorem trail_follows_fingertip st f st' lm others tip :
  drawingStarted st = true -> shapeType st <> None ->
  hands f = lm :: others -> lm !! 8%nat = Some tip ->
  detectFunction st f = Some (st', []) ->
  trailPoints st'
  = trailPoints st ++ [MkTrail (px tip * width f) (py tip * height f) (now f)].
Proof.
  intros Hstarted Hs Hhands Htip Hstep. unfold detectFunction in Hstep.
  assert (Hch : chooseShape st f = st).
  { unfold chooseShape. destruct (shapeType st); [reflexivity | congruence]. }
  rewrite Hch in Hstep. unfold trackFinger in Hstep.
  rewrite Hhands, Htip, Hstarted in Hstep. injection Hstep as Hstep.
  unfold scoreAndReset in Hstep.
  destruct (completed _); [discriminate|]. injection Hstep as <-. reflexivity.
Qed.

End WithTrig.

(** The square has no checkpoint on its bottom side: a fingertip along the
    bottom edge, 25 pixels or more away from the two vertical sides, is on
    the outline (it starts the trail) and yet near no checkpoint, so it
    never adds to the hit-set. *)
Theorem bottom_edge_never_hits (cx cy r size tipX tipY : Q) (hit : gset nat) :
  cx - size / 2 + TOLERANCE <= tipX -> tipX <= cx + size / 2 - TOLERANCE ->
  cy + size / 2 - TOLERANCE < tipY -> tipY < cy + size / 2 + TOLERANCE ->
  isOnShape (Some square) cx cy r size tipX tipY = true
  /\ checkSquareHit cx cy size tipX tipY hit = hit.
Proof.
  unfold TOLERANCE. intros Hx1 Hx2 Hy1 Hy2. split.
  - unfold isOnShape, TOLERANCE. cbv zeta.
    rewrite !andb_true_iff, !orb_true_iff, !JSFacts.ge_iff, !JSFacts.le_iff,
      !JSFacts.abs_lt_iff.
    ShapeGeometry.const_div. repeat split; first [lra | right; right; right; lra].
  - apply set_eq. intros i. rewrite elem_of_checkSquareHit.
    split; [|auto]. intros [H | (p & Hp & H)]; [exact H|]. exfalso.
    apply list_elem_of_lookup_2 in Hp.
    apply JSFacts.hypot_lt_iff in H as [Ht H].
    destruct (ShapeGeometry.square_lt_bound _ _ _ Ht H) as [[Ha Hb] [Hc Hd]].
    clear H. unfold TOLERANCE in *.
    assert (Hq : size / (inject_Z (Z.of_nat CHECKPOINTS) / 4) == size / 4).
    { change (inject_Z (Z.of_nat CHECKPOINTS)) with 16. field. }
    unfold sides in Hp.
    repeat (apply elem_of_cons in Hp as [-> | Hp];
            [simpl in *; rewrite ?Hq in *; clear Hq; ShapeGeometry.const_div; lra |]).
    now apply elem_of_nil in Hp.
Qed.

Lemma between_frames_witness :
  reachable (trig := Examples.table_trig) Examples.fresh_square
  /\ (size (checkpointsHit Examples.fresh_square) < 14)%nat.
Proof.
  assert (Hr : reachable (trig := Examples.table_trig) Examples.fresh_square).
  { apply (reach_step initial (Examples.empty_frame 0 (1 # 2)) _ []).
    - apply reach_initial.
    - reflexivity. }
  split; [exact Hr|].
  exact (proj1 (between_frames (trig := Examples.table_trig) _ Hr)).
Defined.

Lemma progress_kept_witness :
  let st := Examples.circle_with [0; 1]%nat true in
  let f := Examples.sweep_frame 2 in
  exists st',
    detectFunction (trig := Examples.table_trig) st f = Some (st', [])
    /\ checkpointsHit st ⊆ checkpointsHit st'.
Proof.
  intros st f.
  destruct (detectFunction (trig := Examples.table_trig) st f) as [[st' ops]|] eqn:Hstep;
    [|vm_compute in Hstep; discriminate].
  assert (Hops : ops = []) by (vm_compute in Hstep; now injection Hstep as _ <-).
  subst ops. exists st'. split; [reflexivity|].
  destruct (progress_kept (trig := Examples.table_trig) st f st' [] circle eq_refl Hstep)
    as [([=] & _) | (_ & _ & Hsub & _)].
  exact Hsub.
Defined.

Lemma trail_follows_fingertip_witness :
  let st := Examples.circle_with [0; 1]%nat true in
  let f := Examples.sweep_frame 2 in
  exists st',
    detectFunction (trig := Examples.table_trig) st f = Some (st', [])
    /\ length (trailPoints st') = 1%nat.
Proof.
  intros st f.
  destruct (detectFunction (trig := Examples.table_trig) st f) as [[st' ops]|] eqn:Hstep;
    [|vm_compute in Hstep; discriminate].
  assert (Hops : ops = []) by (vm_compute in Hstep; now injection Hstep as _ <-).
  subst ops. exists st'. split; [reflexivity|].
  rewrite (trail_follows_fingertip (trig := Examples.table_trig) st f st' _ [] _
             eq_refl ltac:(discriminate) eq_refl eq_refl Hstep).
  reflexivity.
Defined.

Lemma bottom_edge_never_hits_witness :
  isOnShape (Some square) 320 240 144 288 320 384 = true
  /\ checkSquareHit 320 240 288 320 384 ∅ = ∅.
Proof.
  apply (bottom_edge_never_hits 320 240 144 288 320 384 ∅);
    vm_compute; first [discriminate | reflexivity].
Defined.

End ShapeTracingLoop.

(** ** Frames that throw, frames that cannot *)

Module FrameErrors.

Lemma oand_is_Some (a b : obool) : is_Some a -> is_Some b -> is_Some (a &&? b).
Proof. intros [[|] ->] Hb; simpl; [exact Hb | eauto]. Qed.

Lemma on_point_is_Some (test : point -> bool) (p : option point) :
  is_Some p -> is_Some (on_point test p).
Proof. intros [q ->]. simpl. eauto. Qed.

Lemma bind_is_Some {A B} (e : option A) (k : A -> option B) :
  is_Some e -> (forall a, is_Some (k a)) -> is_Some (e ≫= k).
Proof. intros [a ->] Hk. simpl. apply Hk. Qed.

Lemma lookup_full (lm : list point) (i : nat) :
  (21 <= length lm)%nat -> (i < 21)%nat -> is_Some (lm !! i).
Proof. intros Hlen Hi. apply lookup_lt_is_Some. lia. Qed.

Ltac some_tests Hlen :=
  repeat first
    [ apply oand_is_Some
    | apply on_point_is_Some
    | apply (lookup_full _ _ Hlen); lia
    | solve [eauto] ].

Lemma memory_checkGesture_total lm g :
  (21 <= length lm)%nat -> is_Some (MemoryMatch.checkGesture lm g).
Proof.
  intros Hlen. unfold MemoryMatch.checkGesture.
  destruct (lookup_full lm 0 Hlen ltac:(lia)) as [palm ->].
  destruct (lookup_full lm 4 Hlen ltac:(lia)) as [tt Htt].
  destruct (lookup_full lm 3 Hlen ltac:(lia)) as [ti Hti].
  cbv zeta.
  apply bind_is_Some; [some_tests Hlen | intros b1].
  apply bind_is_Some; [some_tests Hlen | intros b2].
  apply bind_is_Some; [some_tests Hlen | intros b3].
  apply bind_is_Some;
    [rewrite Htt, Hti; cbn [mbind option_bind]; some_tests Hlen | intros b4].
  apply bind_is_Some; [some_tests Hlen | intros b5].
  eauto.
Qed.

Lemma simon_palmSum_total lm :
  (21 <= length lm)%nat -> is_Some (SimonSays.palmSum lm).
Proof.
  intros Hlen. unfold SimonSays.palmSum, SimonSays.palmIndices. simpl.
  destruct (lookup_full lm 0 Hlen ltac:(lia)) as [p0 ->].
  destruct (lookup_full lm 1 Hlen ltac:(lia)) as [p1 ->].
  destruct (lookup_full lm 5 Hlen ltac:(lia)) as [p5 ->].
  destruct (lookup_full lm 9 Hlen ltac:(lia)) as [p9 ->].
  destruct (lookup_full lm 13 Hlen ltac:(lia)) as [p13 ->].
  destruct (lookup_full lm 17 Hlen ltac:(lia)) as [p17 ->].
  simpl. eauto.
Qed.

Lemma simon_checkGesture_total lm g :
  (21 <= length lm)%nat -> is_Some (SimonSays.checkGesture lm g).
Proof.
  intros Hlen. unfold SimonSays.checkGesture.
  destruct (simon_palmSum_total lm Hlen) as [acc ->].
  destruct (lookup_full lm 9 Hlen ltac:(lia)) as [mcp ->].
  cbv zeta.
  apply bind_is_Some; [some_tests Hlen | intros b1].
  apply bind_is_Some; [some_tests Hlen | intros b2].
  apply bind_is_Some; [some_tests Hlen | intros b3].
  apply bind_is_Some; [some_tests Hlen | intros b4].
  apply bind_is_Some; [some_tests Hlen | intros b5].
  eauto.
Qed.

(** The two [checkGesture]s on hands with landmarks missing: SimonSays
    reads landmark 17 for the palm centre and throws on a hand of at most 17
    landmarks; MemoryMatch reads the index fingertip (8) first and throws on
    a hand of at most 8; with the 21 landmarks of the detector neither
    throws, whatever the target. *)
Theorem checkGesture_throws_or_not lm g :
  ((length lm <= 17)%nat -> SimonSays.checkGesture lm g = None)
  /\ ((length lm <= 8)%nat -> MemoryMatch.checkGesture lm g = None)
  /\ ((21 <= length lm)%nat ->
      is_Some (SimonSays.checkGesture lm g) /\ is_Some (MemoryMatch.checkGesture lm g)).
Proof.
  split; [|split].
  - intros Hlen. unfold SimonSays.checkGesture.
    assert (H17 : lm !! 17%nat = None) by (apply lookup_ge_None; lia).
    assert (Hsum : SimonSays.palmSum lm = None).
    { unfold SimonSays.palmSum, SimonSays.palmIndices.
      change [0; 1; 5; 9; 13; 17]%nat with ([0; 1; 5; 9; 13] ++ [17])%nat.
      rewrite fold_left_app.
      match goal with
      | |- context [fold_left ?step [0; 1; 5; 9; 13]%nat ?a0] =>
          generalize (fold_left step [0; 1; 5; 9; 13]%nat a0)
      end.
      intros [a|]; simpl; [rewrite H17|]; reflexivity. }
    now rewrite Hsum.
  - intros Hlen. unfold MemoryMatch.checkGesture.
    assert (H8 : lm !! 8%nat = None) by (apply lookup_ge_None; lia).
    destruct (lm !! 0%nat) as [palm|]; [|reflexivity]. cbv zeta. rewrite H8.
    reflexivity.
  - intros Hlen. split;
      [now apply simon_checkGesture_total | now apply memory_checkGesture_total].
Qed.

Lemma checkGesture_throws_or_not_witness :
  SimonSays.checkGesture (firstn 17 Examples.closed_fist) (Some fist) = None
  /\ MemoryMatch.checkGesture (firstn 8 Examples.thumb_out_fist) (Some fist) = None
  /\ is_Some (SimonSays.checkGesture Examples.closed_fist (Some open)).
Proof.
  pose proof (checkGesture_throws_or_not (firstn 17 Examples.closed_fist) (Some fist))
    as (H1 & _).
  pose proof (checkGesture_throws_or_not (firstn 8 Examples.thumb_out_fist) (Some fist))
    as (_ & H2 & _).
  pose proof (checkGesture_throws_or_not Examples.closed_fist (Some open))
    as (_ & _ & H3).
  split; [apply H1; vm_compute; lia|]. split; [apply H2; vm_compute; lia|].
  apply H3. vm_compute. lia.
Defined.

Lemma spawn_has_target st f : is_Some (QuickReaction.target (QuickReaction.spawn st f)).
Proof.
  unfold QuickReaction.spawn. destruct (QuickReaction.target st) as [tg|] eqn:Ht; simpl.
  - destruct (_ <? _)%Z; simpl; [eauto | rewrite Ht; eauto].
  - eauto.
Qed.

Lemma no_fingertip_cases (f : Frame) :
  no_fingertip f
  \/ hands f = []
  \/ exists lm others tip, hands f = lm :: others /\ lm !! 8%nat = Some tip.
Proof.
  unfold no_fingertip. destruct (hands f) as [|lm others]; [auto|].
  destruct (lm !! 8%nat) as [tip|] eqn:Ht; [right; right | left]; eauto 6.
Qed.

Lemma quick_throw_iff (f : Frame) :
  forall st, QuickReaction.detectFunction st f = None <-> no_fingertip f.
Proof.
  intros st. unfold QuickReaction.detectFunction, QuickReaction.checkTap.
  destruct (spawn_has_target st f) as [tg ->].
  destruct (no_fingertip_cases f) as [H | [H | (lm & others & tip & H & Ht)]].
  - split; [intros _; exact H|]. intros _. destruct H as (lm & others & Hh & Hn).
    rewrite Hh, Hn. reflexivity.
  - rewrite H. split; [discriminate|]. intros (lm & others & Hh & _).
    rewrite H in Hh. discriminate.
  - rewrite H, Ht. split; [destruct (JS.hypot_lt _ _ _); discriminate|].
    intros (lm' & others' & Hh & Hn).
    rewrite H in Hh. injection Hh as <- <-. congruence.
Qed.

Lemma shape_throw_iff (f : Frame) :
  forall (trig : Trig) st, ShapeTracing.detectFunction st f = None <-> no_fingertip f.
Proof.
  intros trig st. unfold ShapeTracing.detectFunction, ShapeTracing.trackFinger.
  destruct (no_fingertip_cases f) as [H | [H | (lm & others & tip & H & Ht)]].
  - split; [intros _; exact H|]. intros _. destruct H as (lm & others & Hh & Hn).
    rewrite Hh, Hn. reflexivity.
  - rewrite H. split; [discriminate|]. intros (lm & others & Hh & _).
    rewrite H in Hh. discriminate.
  - rewrite H, Ht. split; [discriminate|].
    intros (lm' & others' & Hh & Hn).
    rewrite H in Hh. injection Hh as <- <-. congruence.
Qed.

Lemma swipe_throw_iff (f : Frame) :
  forall st, SwipeChallenge.detectFunction st f = None <-> no_fingertip f.
Proof.
  intros st. unfold SwipeChallenge.detectFunction, SwipeChallenge.trackSwipe.
  destruct (no_fingertip_cases f) as [H | [H | (lm & others & tip & H & Ht)]].
  - split; [intros _; exact H|]. intros _. destruct H as (lm & others & Hh & Hn).
    rewrite Hh, Hn. reflexivity.
  - rewrite H. split; [discriminate|]. intros (lm & others & Hh & _).
    rewrite H in Hh. discriminate.
  - rewrite H, Ht. split.
    + destruct (SwipeChallenge.swipeStart _); [destruct (JS.hypot_gt _ _ _)|];
        discriminate.
    + intros (lm' & others' & Hh & Hn).
      rewrite H in Hh. injection Hh as <- <-. congruence.
Qed.

Lemma ball_throw_iff (f : Frame) :
  forall st,
    BallGame.detectFunction st f = None
    <-> BallGame.gameState st <> BallGame.init
        /\ BallGame.gameState (BallGame.showPhase st f) = BallGame.input
        /\ no_fingertip f.
Proof.
  intros st. unfold BallGame.detectFunction, BallGame.initPhase.
  destruct (decide (BallGame.gameState st = BallGame.init)) as [Hinit | Hinit].
  - rewrite bool_decide_eq_true_2 by exact Hinit.
    unfold BallGame.showPhase, BallGame.inputPhase. simpl. rewrite Z.sub_diag. simpl.
    split; [discriminate | tauto].
  - rewrite bool_decide_eq_false_2 by exact Hinit.
    unfold BallGame.inputPhase.
    destruct (decide (BallGame.gameState (BallGame.showPhase st f) = BallGame.input))
      as [Hin | Hin].
    + rewrite bool_decide_eq_true_2 by exact Hin.
      destruct (no_fingertip_cases f) as [H | [H | (lm & others & tip & H & Ht)]].
      * split; [intros _; auto|]. intros _. destruct H as (lm & others & Hh & Hn).
        rewrite Hh, Hn. reflexivity.
      * rewrite H. split; [discriminate|]. intros (_ & _ & lm & others & Hh & _).
         rewrite H in Hh. discriminate.
      * rewrite H, Ht. split.
        -- destruct (JS.forEach _ _ _ _) as [st1 touching].
            destruct (negb touching && _); discriminate.
        -- intros (_ & _ & lm' & others' & Hh & Hn).
            rewrite H in Hh. injection Hh as <- <-. congruence.
    + rewrite bool_decide_eq_false_2 by exact Hin. split; [discriminate | tauto].
Qed.

(** The four games that follow the index fingertip throw on exactly the
    frames whose hand has no landmark 8 (BallGame only when the frame reaches
    its Input phase): no other frame stops the frame loop. *)
Theorem fingertip_games_throw_iff (f : Frame) :
  (forall st, QuickReaction.detectFunction st f = None <-> no_fingertip f)
  /\ (forall (trig : Trig) st, ShapeTracing.detectFunction st f = None <-> no_fingertip f)
  /\ (forall st, SwipeChallenge.detectFunction st f = None <-> no_fingertip f)
  /\ (forall st,
        BallGame.detectFunction st f = None
        <-> BallGame.gameState st <> BallGame.init
            /\ BallGame.gameState (BallGame.showPhase st f) = BallGame.input
            /\ no_fingertip f).
Proof.
  auto using quick_throw_iff, shape_throw_iff, swipe_throw_iff, ball_throw_iff.
Qed.

(** With the 21 landmarks of the detector in every hand, no frame of any of
    the six games throws. *)
Theorem full_hands_never_throw (f : Frame) :
  full_hands f ->
  (forall st, is_Some (QuickReaction.detectFunction st f))
  /\ (forall (trig : Trig) st, is_Some (ShapeTracing.detectFunction st f))
  /\ (forall st, is_Some (MemoryMatch.detectFunction st f))
  /\ (forall st, is_Some (BallGame.detectFunction st f))
  /\ (forall st, is_Some (SwipeChallenge.detectFunction st f))
  /\ (forall st, is_Some (SimonSays.detectFunction st f)).
Proof.
  intros Hfull.
  assert (Hnot : ~ no_fingertip f).
  { intros (lm & others & Hh & Hn). unfold full_hands in Hfull. rewrite Hh in Hfull.
    apply Forall_cons in Hfull as [Hlen _]. apply lookup_ge_None in Hn. lia. }
  pose proof (quick_throw_iff f) as Hq. pose proof (shape_throw_iff f) as Hs.
  pose proof (swipe_throw_iff f) as Hw. pose proof (ball_throw_iff f) as Hb.
  split; [|split; [|split; [|split; [|split]]]].
  - intros st. apply not_eq_None_Some. now rewrite Hq.
  - intros trig st. apply not_eq_None_Some. now rewrite Hs.
  - intros st. unfold MemoryMatch.detectFunction, MemoryMatch.matchHand.
    unfold full_hands in Hfull.
    destruct (hands f) as [|lm others]; [eauto|].
    apply Forall_cons in Hfull as [Hlen _].
    destruct (memory_checkGesture_total lm
                (mjoin (MemoryMatch.currentSequence (MemoryMatch.startRound st f)
                        !! MemoryMatch.currentStep (MemoryMatch.startRound st f))) Hlen)
      as [[|] ->]; [|eauto].
    destruct (_ <=? _)%nat; eauto.
  - intros st. apply not_eq_None_Some. rewrite Hb. tauto.
  - intros st. apply not_eq_None_Some. now rewrite Hw.
  - intros st. unfold SimonSays.detectFunction. unfold full_hands in Hfull.
    destruct (hands f) as [|lm others]; [eauto|].
    apply Forall_cons in Hfull as [Hlen _].
    destruct (JS.gt _ 0); [|eauto].
    destruct (simon_checkGesture_total lm
                (SimonSays.gesture (SimonSays.startRound st f)) Hlen) as [[|] ->]; eauto.
Qed.

Lemma fingertip_games_throw_iff_witness :
  SwipeChallenge.detectFunction (SwipeChallenge.initial 0)
    (Examples.hand_frame 16 (firstn 8 Examples.closed_fist) 0) = None.
Proof.
  destruct (fingertip_games_throw_iff
              (Examples.hand_frame 16 (firstn 8 Examples.closed_fist) 0))
    as (_ & _ & H & _).
  apply H. exists (firstn 8 Examples.closed_fist), []. split; reflexivity.
Defined.

Lemma full_hands_never_throw_witness :
  full_hands (Examples.hand_frame 16 Examples.closed_fist 0)
  /\ is_Some (SimonSays.detectFunction (SimonSays.initial 0)
                (Examples.hand_frame 16 Examples.closed_fist 0)).
Proof.
  assert (H : full_hands (Examples.hand_frame 16 Examples.closed_fist 0)).
  { unfold full_hands. simpl. repeat constructor. }
  split; [exact H|].
  destruct (full_hands_never_throw _ H) as (_ & _ & _ & _ & _ & Hs). apply Hs.
Defined.

End FrameErrors.

(** ** MemoryMatch: rounds *)

Module MemoryMatchRounds.

Import MemoryMatch.

Implicit Types (st : State) (f : Frame).

(** The cursor is inside the sequence, or there is no sequence and it is 0. *)
Lemma cursor_step st f st' ops :
  detectFunction st f = Some (st', ops) ->
  (currentSequence st = [] /\ currentStep st = 0%nat)
  \/ (length (currentSequence st) = 2%nat /\ (currentStep st < 2)%nat) ->
  (currentSequence st' = [] /\ currentStep st' = 0%nat)
  \/ (length (currentSequence st') = 2%nat /\ (currentStep st' < 2)%nat).
Proof.
  unfold detectFunction. intros Hstep Hinv.
  assert (H0 : length (currentSequence (startRound st f)) = 2%nat
               /\ (currentStep (startRound st f) < 2)%nat).
  { unfold startRound. destruct Hinv as [[Hs _] | [Hl Hc]].
    - rewrite Hs. simpl. auto.
    - rewrite Hl. simpl. destruct (expired st f); simpl; auto. }
  destruct H0 as [Hl Hc].
  apply MemoryMatchClaims.matchHand_sequence in Hstep
    as [(_ & Hs & [Hk | [Hk Hlt]]) | (_ & Hs & Hk & _)].
  - right. rewrite Hs, Hk. auto.
  - right. rewrite Hs. split; [exact Hl | lia].
  - left. auto.
Qed.

(** The same over a run of frames. *)
Lemma cursor_run (frames : list Frame) st0 st1 ops1 :
  run_ticks detectFunction st0 frames = Some (st1, ops1) ->
  (currentSequence st0 = [] /\ currentStep st0 = 0%nat)
  \/ (length (currentSequence st0) = 2%nat /\ (currentStep st0 < 2)%nat) ->
  (currentSequence st1 = [] /\ currentStep st1 = 0%nat)
  \/ (length (currentSequence st1) = 2%nat /\ (currentStep st1 < 2)%nat).
Proof.
  revert st0 st1 ops1.
  induction frames as [|f frames IH]; intros st0 st1 ops1; simpl.
  - now intros [= <- <-].
  - destruct (detectFunction st0 f) as [[st2 ops2]|] eqn:Hd; [|discriminate].
    destruct (run_ticks detectFunction st2 frames) as [[st3 ops3]|] eqn:Hr;
      [|discriminate].
    intros [= <- <-] Hinv. apply (IH _ _ _ Hr). eapply cursor_step; eauto.
Qed.

(** In any game the cursor stays inside the two-gesture sequence: between
    frames either there is no sequence and the cursor is 0, or the sequence
    has two gestures and the cursor is 0 or 1. *)
Theorem cursor_in_range (t0 : Z) (frames : list Frame) st ops :
  run_ticks detectFunction (initial t0) frames = Some (st, ops) ->
  (currentSequence st = [] /\ currentStep st = 0%nat)
  \/ (length (currentSequence st) = 2%nat /\ (currentStep st < 2)%nat).
Proof.
  intros Hrun. apply (cursor_run _ _ _ _ Hrun). left. auto.
Qed.

Lemma matchHand_timer st f st' ops :
  matchHand st f = Some (st', ops) -> roundTimer st' = roundTimer st.
Proof.
  unfold matchHand. destruct (hands f) as [|lm ?]; [now intros [= <- <-]|].
  destruct (checkGesture lm _) as [[|]|]; [| |discriminate].
  - destruct (_ <=? _)%nat; intros [= <- <-]; reflexivity.
  - now intros [= <- <-].
Qed.

(** A frame that comes after the round time is over starts a new round
    whatever the progress was: fresh random sequence, clock restarted, and no
    score in that frame even when the hand matches (the cursor ends at 0 or
    1). *)
Theorem expired_round_restarts st f st' ops :
  expired st f = true ->
  detectFunction st f = Some (st', ops) ->
  ops = []
  /\ currentSequence st' = [randomGesture (rand f 0); randomGesture (rand f 1)]
  /\ roundTimer st' = now f
  /\ (currentStep st' <= 1)%nat.
Proof.
  intros Hexp. unfold detectFunction.
  assert (Hs : startRound st f
               = MkState [randomGesture (rand f 0); randomGesture (rand f 1)] 0 (now f)).
  { unfold startRound. rewrite Hexp, orb_true_r. reflexivity. }
  rewrite Hs. intros Hm. pose proof (matchHand_timer _ _ _ _ Hm) as Ht.
  apply MemoryMatchClaims.matchHand_sequence in Hm
    as [(-> & Hq & Hk) | (_ & _ & _ & Hlen)]; simpl in *; [|lia].
  split; [reflexivity|]. split; [exact Hq|]. split; [exact Ht|].
  destruct Hk as [-> | [-> _]]; lia.
Qed.

(** A frame scores only in a running round whose first gesture was already
    matched: the cursor is 1, the round is not restarted by the frame, and a
    hand is present; the sequence is then emptied and the cursor reset, the
    round clock left as it was. *)
Theorem score_needs_second_match (t0 : Z) (frames : list Frame) ops0 st f st' :
  run_ticks detectFunction (initial t0) frames = Some (st, ops0) ->
  detectFunction st f = Some (st', [IncScore]) ->
  currentStep st = 1%nat
  /\ length (currentSequence st) = 2%nat
  /\ expired st f = false
  /\ hands f <> []
  /\ st' = MkState [] 0 (roundTimer st).
Proof.
  intros Hrun Hstep.
  assert (Hinv := cursor_run _ _ _ _ Hrun (or_introl (conj eq_refl eq_refl))).
  unfold detectFunction in Hstep.
  pose proof (matchHand_timer _ _ _ _ Hstep) as Ht.
  assert (Hhands : hands f <> []).
  { intros Hno. unfold matchHand in Hstep. rewrite Hno in Hstep. discriminate. }
  pose proof Hstep as Hseq.
  apply MemoryMatchClaims.matchHand_sequence in Hseq
    as [([=] & _) | (_ & Hs & Hk & Hlen)].
  unfold startRound in *.
  destruct Hinv as [[He _] | [Hl Hc]].
  { rewrite He in *. simpl in *. lia. }
  rewrite Hl in *. simpl in *.
  destruct (expired st f) eqn:Hexp; simpl in *; [lia|].
  split; [lia|]. split; [reflexivity|]. split; [reflexivity|]. split; [exact Hhands|].
  destruct st' as [sq step tm]. simpl in *. congruence.
Qed.

(** Two frames are enough, and needed: from a state without a sequence, a
    frame whose hand shows the first drawn gesture followed by a frame, within
    the round time, whose hand shows the second one scores exactly once, on
    the second frame. *)
Theorem two_matches_score st f1 f2 lm1 others1 lm2 others2 :
  currentSequence st = [] ->
  hands f1 = lm1 :: others1 -> hands f2 = lm2 :: others2 ->
  checkGesture lm1 (randomGesture (rand f1 0)) = Some true ->
  checkGesture lm2 (randomGesture (rand f1 1)) = Some true ->
  (now f2 - now f1 <= ROUND_TIME * 1000)%Z ->
  run_ticks detectFunction st [f1; f2] = Some (MkState [] 0 (now f1), [IncScore]).
Proof.
  intros Hs H1 H2 Hg1 Hg2 Htime. simpl.
  unfold detectFunction at 1. unfold startRound. rewrite Hs. simpl.
  unfold matchHand. rewrite H1. simpl. rewrite Hg1. simpl.
  unfold detectFunction, startRound, expired. simpl.
  destruct (Z.ltb_spec (ROUND_TIME * 1000) (now f2 - now f1)) as [Hlt | _]; [lia|].
  unfold matchHand. rewrite H2. simpl. rewrite Hg2. reflexivity.
Qed.

Lemma cursor_in_range_witness :
  run_ticks detectFunction (initial 0)
    [Examples.hand_frame 100 Examples.thumb_out_fist 0.9]
  = Some (MkState [Some fist; Some fist] 1 100, [])
  /\ (1 < 2)%nat.
Proof.
  assert (H : run_ticks detectFunction (initial 0)
                [Examples.hand_frame 100 Examples.thumb_out_fist 0.9]
              = Some (MkState [Some fist; Some fist] 1 100, []))
    by (vm_compute; reflexivity).
  split; [exact H|].
  destruct (cursor_in_range _ _ _ _ H) as [[[=] _] | [_ Hc]]. exact Hc.
Defined.

Lemma expired_round_restarts_witness :
  let st := MkState [Some fist; Some fist] 1 0 in
  let f := Examples.hand_frame 9000 Examples.thumb_out_fist 0.9 in
  detectFunction st f = Some (MkState [Some fist; Some fist] 1 9000, [])
  /\ roundTimer (MkState [Some fist; Some fist] 1 9000) = now f.
Proof.
  intros st f.
  assert (H : detectFunction st f = Some (MkState [Some fist; Some fist] 1 9000, []))
    by (vm_compute; reflexivity).
  split; [exact H|].
  exact (proj1 (proj2 (proj2 (expired_round_restarts st f _ _ eq_refl H)))).
Defined.

Lemma score_needs_second_match_witness :
  let f1 := Examples.hand_frame 100 Examples.thumb_out_fist 0.9 in
  let f2 := Examples.hand_frame 116 Examples.thumb_out_fist 0.9 in
  let st := MkState [Some fist; Some fist] 1 100 in
  run_ticks detectFunction (initial 0) [f1] = Some (st, [])
  /\ detectFunction st f2 = Some (MkState [] 0 100, [IncScore])
  /\ currentStep st = 1%nat.
Proof.
  intros f1 f2 st.
  assert (H1 : run_ticks detectFunction (initial 0) [f1] = Some (st, []))
    by (vm_compute; reflexivity).
  assert (H2 : detectFunction st f2 = Some (MkState [] 0 100, [IncScore]))
    by (vm_compute; reflexivity).
  split; [exact H1|]. split; [exact H2|].
  exact (proj1 (score_needs_second_match 0 [f1] [] st f2 _ H1 H2)).
Defined.

Lemma two_matches_score_witness :
  run_ticks detectFunction (initial 0)
    [Examples.hand_frame 100 Examples.thumb_out_fist 0.9;
     Examples.hand_frame 116 Examples.thumb_out_fist 0.9]
  = Some (MkState [] 0 100, [IncScore]).
Proof.
  apply (two_matches_score (initial 0)
           (Examples.hand_frame 100 Examples.thumb_out_fist 0.9)
           (Examples.hand_frame 116 Examples.thumb_out_fist 0.9)
           Examples.thumb_out_fist [] Examples.thumb_out_fist []);
    try reflexivity.
  vm_compute. discriminate.
Defined.

End MemoryMatchRounds.

(** ** The gesture predicates do not depend on where the hand is *)

Module GestureInvariance.

Lemma lt_comp (a a' b b' : Q) : a == a' -> b == b' -> JS.lt a b = JS.lt a' b'.
Proof.
  intros Ha Hb. apply eq_true_iff_eq. rewrite !JSFacts.lt_iff, Ha, Hb. reflexivity.
Qed.






















End GestureInvariance.

(** ** SimonSays: rounds *)

Module SimonSaysRounds.

Import SimonSays.

Implicit Types (st : State) (f : Frame).

Lemma timeLeft_positive st f :
  (now f - timer st < ROUND_TIME * 1000)%Z -> 0 < timeLeft st f.
Proof.
  intros H. unfold timeLeft. apply Q.max_lt_iff. right.
  assert (Hq : inject_Z (now f - timer st) < inject_Z (ROUND_TIME * 1000))
    by (now rewrite <- Zlt_Qlt).
  change (inject_Z (ROUND_TIME * 1000)) with 5000 in Hq.
  change (inject_Z ROUND_TIME) with 5.
  unfold Qdiv. change (/ 1000) with (1 # 1000). lra.
Qed.

(** After the round start of a frame, time is left unless the frame comes
    exactly [ROUND_TIME] seconds after the start of a running round. *)
Lemma timeLeft_after_start st f :
  gesture st = None \/ (now f - timer st)%Z <> (ROUND_TIME * 1000)%Z ->
  JS.gt (timeLeft (startRound st f) f) 0 = true.
Proof.
  intros H. apply JSFacts.gt_iff. apply timeLeft_positive. unfold startRound.
  destruct (gesture st) as [g|] eqn:Hg; simpl.
  - destruct (Z.ltb_spec (ROUND_TIME * 1000) (now f - timer st)) as [Hlt | Hle]; simpl.
    + rewrite Z.sub_diag. reflexivity.
    + destruct H as [[=] | H]. lia.
  - rewrite Z.sub_diag. reflexivity.
Qed.

(** A hand that shows the prompt of the frame scores, and the prompt is
    cleared and the clock restarted for the next frame to draw a new one:
    in every frame but the one that comes exactly 5000 ms after the start of
    a running round. The prompt of the frame is the new one when the frame
    itself starts a round. *)
Theorem matching_hand_scores st f lm others :
  hands f = lm :: others ->
  checkGesture lm (gesture (startRound st f)) = Some true ->
  gesture st = None \/ (now f - timer st)%Z <> (ROUND_TIME * 1000)%Z ->
  detectFunction st f = Some (MkState None (now f), [IncScore])
  /\ forall f', startRound (MkState None (now f)) f'
                = MkState (JS.index GESTURES (JS.floor_scaled (rand f' 0) (length GESTURES)))
                          (now f').
Proof.
  intros Hh Hg Ht. split; [|reflexivity].
  unfold detectFunction. rewrite Hh, (timeLeft_after_start st f Ht), Hg. reflexivity.
Qed.

(** The frame exactly 5000 ms after the start of a running round is dead:
    the round is not over yet (the test is [>]), no time is left (the test
    is [> 0]), so the hand is not even looked at: nothing changes, nothing
    is scored, and a malformed hand does not throw. *)
Theorem frame_at_round_end_is_dead st f g :
  gesture st = Some g ->
  (now f - timer st)%Z = (ROUND_TIME * 1000)%Z ->
  detectFunction st f = Some (st, []).
Proof.
  intros Hg Ht. unfold detectFunction.
  assert (Hs : startRound st f = st).
  { unfold startRound. rewrite Hg, Ht. reflexivity. }
  rewrite Hs. destruct (hands f) as [|lm others]; [reflexivity|].
  assert (Hl : JS.gt (timeLeft st f) 0 = false).
  { unfold timeLeft. rewrite Ht. reflexivity. }
  rewrite Hl. reflexivity.
Qed.

Lemma matching_hand_scores_witness :
  detectFunction (MkState (Some fist) 0) (Examples.hand_frame 4999 Examples.closed_fist 0)
  = Some (MkState None 4999, [IncScore]).
Proof.
  apply (matching_hand_scores (MkState (Some fist) 0)
           (Examples.hand_frame 4999 Examples.closed_fist 0) Examples.closed_fist []).
  - reflexivity.
  - vm_compute. reflexivity.
  - right. vm_compute. discriminate.
Defined.

Lemma frame_at_round_end_is_dead_witness :
  detectFunction (MkState (Some fist) 0) (Examples.hand_frame 5000 Examples.closed_fist 0)
  = Some (MkState (Some fist) 0, []).
Proof.
  apply (frame_at_round_end_is_dead (MkState (Some fist) 0)
           (Examples.hand_frame 5000 Examples.closed_fist 0) fist); reflexivity.
Defined.

End SimonSaysRounds.

(** ** SwipeChallenge: rounds *)

Module SwipeChallengeRounds.

Import SwipeChallenge.

Implicit Types (st : State) (f : Frame).

Lemma running_round st f d :
  currentDirection st = Some d ->
  (now f - roundTimer st <= ROUND_TIME * 1000)%Z ->
  startRound st f = st.
Proof.
  intros Hd Ht. unfold startRound. rewrite Hd. simpl.
  destruct (Z.ltb_spec (ROUND_TIME * 1000) (now f - roundTimer st)); [lia | reflexivity].
Qed.

(** The start of a swipe is kept: over any number of frames of a running
    round in which the fingertip stays within the threshold of the recorded
    start (or no hand is seen), nothing changes and nothing is scored, so
    the displacement is always measured from the first fingertip of the
    round, however slowly the hand moves. *)
Theorem swipe_start_is_kept st (frames : list Frame) d start :
  currentDirection st = Some d -> swipeStart st = Some start ->
  Forall (short_of_swipe st start) frames ->
  run_ticks detectFunction st frames = Some (st, []).
Proof.
  intros Hd Hs Hall. induction Hall as [|f frames [Ht Hf] _ IH]; [reflexivity|].
  simpl.
  assert (Hstep : detectFunction st f = Some (st, [])).
  { unfold detectFunction. rewrite (running_round st f d Hd Ht). unfold trackSwipe.
    destruct (hands f) as [|lm others]; [reflexivity|].
    destruct Hf as (tip & Htip & Hnear). rewrite Htip, Hs, Hnear. reflexivity. }
  rewrite Hstep, IH. reflexivity.
Qed.

(** A frame that comes after the round time is over never scores, however
    far the fingertip is from the old start: the round is restarted first
    (new prompt, clock at the frame), and the fingertip of the frame becomes
    the start of the next swipe. *)
Theorem expired_swipe_is_lost st f lm others tip :
  (ROUND_TIME * 1000 < now f - roundTimer st)%Z ->
  hands f = lm :: others -> lm !! 8%nat = Some tip ->
  detectFunction st f
  = Some (MkState (randomDirection (rand f 0))
                  (Some (MkStart (px tip * width f) (py tip * height f) (now f)))
                  (now f),
          []).
Proof.
  intros Ht Hh Htip. unfold detectFunction, startRound.
  destruct (Z.ltb_spec (ROUND_TIME * 1000) (now f - roundTimer st)); [|lia].
  rewrite orb_true_r. unfold trackSwipe. rewrite Hh, Htip. reflexivity.
Qed.

(** Reversing a displacement that is not zero reverses its direction. *)
Theorem reversed_swipe_is_opposite (deltaX deltaY : Q) :
  ~ (deltaX == 0 /\ deltaY == 0) ->
  getSwipeDirection (- deltaX) (- deltaY) = opposite (getSwipeDirection deltaX deltaY).
Proof.
  intros Hnz. unfold getSwipeDirection.
  assert (Hab : JS.gt (Qabs (- deltaX)) (Qabs (- deltaY))
                = JS.gt (Qabs deltaX) (Qabs deltaY))
    by (apply GestureInvariance.lt_comp; apply Qabs_opp).
  rewrite Hab.
  destruct (JS.gt (Qabs deltaX) (Qabs deltaY)) eqn:Hax.
  - apply JSFacts.gt_iff in Hax.
    assert (Hx : ~ deltaX == 0).
    { intros E. rewrite E in Hax. pose proof (Qabs_nonneg deltaY).
      change (Qabs 0) with 0 in Hax. lra. }
    destruct (JS.gt deltaX 0) eqn:E1, (JS.gt (- deltaX) 0) eqn:E2; try reflexivity.
    + apply JSFacts.gt_iff in E1, E2. lra.
    + apply not_true_iff_false in E1, E2. rewrite JSFacts.gt_iff in E1, E2.
      exfalso. apply Hx. lra.
  - apply not_true_iff_false in Hax. rewrite JSFacts.gt_iff in Hax.
    assert (Hy : ~ deltaY == 0).
    { intros E. apply Hnz. split; [|exact E]. rewrite E in Hax.
      apply Qnot_lt_le in Hax. change (Qabs 0) with 0 in Hax.
      apply Qabs_Qle_condition in Hax as [H1 H2]. lra. }
    destruct (JS.gt deltaY 0) eqn:E1, (JS.gt (- deltaY) 0) eqn:E2; try reflexivity.
    + apply JSFacts.gt_iff in E1, E2. lra.
    + apply not_true_iff_false in E1, E2. rewrite JSFacts.gt_iff in E1, E2.
      exfalso. apply Hy. lra.
Qed.

Lemma swipe_start_is_kept_witness :
  let st := MkState (Some right) (Some (MkStart 100 100 0)) 0 in
  run_ticks detectFunction st
    [Examples.tip_frame 16 120 100 0; Examples.empty_frame 32 0;
     Examples.tip_frame 48 170 110 0]
  = Some (st, []).
Proof.
  intros st. apply (swipe_start_is_kept st _ right (MkStart 100 100 0)); try reflexivity.
  repeat constructor; try (vm_compute; discriminate).
  - exists (Point (120 / 640) (100 / 480)). split; [reflexivity | vm_compute; reflexivity].
  - exists (Point (170 / 640) (110 / 480)). split; [reflexivity | vm_compute; reflexivity].
Defined.

Lemma expired_swipe_is_lost_witness :
  detectFunction (MkState (Some right) (Some (MkStart 100 100 0)) 0)
    (Examples.tip_frame 5001 300 100 (1 # 2))
  = Some (MkState (Some up) (Some (MkStart (300 / 640 * 640) (100 / 480 * 480) 5001)) 5001,
          []).
Proof.
  apply (expired_swipe_is_lost (MkState (Some right) (Some (MkStart 100 100 0)) 0)
           (Examples.tip_frame 5001 300 100 (1 # 2))
           (Examples.hand_with_tip (Point (300 / 640) (100 / 480))) []
           (Point (300 / 640) (100 / 480)));
    reflexivity.
Defined.

Lemma reversed_swipe_is_opposite_witness :
  getSwipeDirection (- (100)) (- (10)) = left.
Proof.
  rewrite (reversed_swipe_is_opposite 100 10); [reflexivity|].
  intros [H _]. vm_compute in H. discriminate H.
Defined.

End SwipeChallengeRounds.

(** ** QuickReaction: targets *)

Module QuickReactionRounds.

Import QuickReaction.

Implicit Types (st : State) (f : Frame).

(** The target on screen was spawned at [lastSpawn]. *)
Lemma spawn_time_step st f st' ops :
  detectFunction st f = Some (st', ops) ->
  (forall tg, target st = Some tg -> spawnTime tg = lastSpawn st) ->
  forall tg, target st' = Some tg -> spawnTime tg = lastSpawn st'.
Proof.
  unfold detectFunction. intros Hstep Hinv.
  assert (H0 : forall tg, target (spawn st f) = Some tg ->
                          spawnTime tg = lastSpawn (spawn st f)).
  { unfold spawn. destruct (_ || _); simpl; [now intros tg [= <-] | exact Hinv]. }
  revert Hstep. unfold checkTap. destruct (hands f) as [|lm ?]; [now intros [= <- <-]|].
  destruct (lm !! 8%nat) as [tip|]; [|discriminate].
  destruct (target (spawn st f)) as [tg|] eqn:Htg; [|discriminate].
  destruct (JS.hypot_lt _ _ _); intros [= <- <-]; simpl.
  - intros tg' [=].
  - rewrite Htg. intros tg' [= <-]. now apply H0.
Qed.

Lemma spawn_time_run (frames : list Frame) : forall st st' ops,
  run_ticks detectFunction st frames = Some (st', ops) ->
  (forall tg, target st = Some tg -> spawnTime tg = lastSpawn st) ->
  forall tg, target st' = Some tg -> spawnTime tg = lastSpawn st'.
Proof.
  induction frames as [|f frames IH]; intros st st' ops; simpl.
  - now intros [= <- <-].
  - destruct (detectFunction st f) as [[st1 ops1]|] eqn:Hd; [|discriminate].
    destruct (run_ticks detectFunction st1 frames) as [[st2 ops2]|] eqn:Hr;
      [|discriminate].
    intros [= <- <-] Hinv. apply (IH _ _ _ Hr). eapply spawn_time_step; eauto.
Qed.

(** In any game, a hit clears the target, restarts the spawn clock and
    records as reaction time the time since the target was spawned; that
    time is never more than [SPAWN_INTERVAL] (an older target has been
    replaced by the frame itself, and is then hit after 0 ms), and it is not
    negative as long as the clock has not gone back. *)
Theorem reaction_time_bounded (t0 : Z) (frames : list Frame) ops0 st f st' :
  run_ticks detectFunction (initial t0) frames = Some (st, ops0) ->
  detectFunction st f = Some (st', [IncScore]) ->
  exists d,
    reactionTime st' = Some d
    /\ (d <= SPAWN_INTERVAL)%Z
    /\ ((lastSpawn st <= now f)%Z -> (0 <= d)%Z)
    /\ target st' = None
    /\ lastSpawn st' = now f.
Proof.
  intros Hrun Hstep.
  assert (Hinv : forall tg, target st = Some tg -> spawnTime tg = lastSpawn st).
  { apply (spawn_time_run _ _ _ _ Hrun). intros tg [=]. }
  unfold detectFunction, checkTap in Hstep.
  destruct (hands f) as [|lm ?]; [discriminate|].
  destruct (lm !! 8%nat) as [tip|]; [|discriminate].
  destruct (target (spawn st f)) as [tg|] eqn:Htg; [|discriminate].
  destruct (JS.hypot_lt _ _ _); [|discriminate].
  injection Hstep as <-. exists (now f - spawnTime tg)%Z. simpl.
  split; [reflexivity|].
  assert (Hsp : spawnTime tg = now f
                \/ (spawnTime tg = lastSpawn st
                    /\ (now f - lastSpawn st <= SPAWN_INTERVAL)%Z)).
  { revert Htg. unfold spawn. destruct (target st) as [tg0|] eqn:H0; simpl.
    - destruct (Z.ltb_spec SPAWN_INTERVAL (now f - lastSpawn st)); simpl.
      + intros [= <-]. now left.
      + rewrite H0. intros [= <-]. right. split; [now apply Hinv | assumption].
    - intros [= <-]. now left. }
  unfold SPAWN_INTERVAL in *.
  destruct Hsp as [-> | [-> Hle]]; repeat split; lia.
Qed.

(** A new target lies on the canvas with its whole radius, whenever the
    canvas is at least as wide and high as a target and [Math.random()]
    returns values in [0, 1). *)
Theorem new_target_on_canvas st f :
  target st = None \/ (SPAWN_INTERVAL < now f - lastSpawn st)%Z ->
  0 <= rand f 0 -> rand f 0 < 1 -> 0 <= rand f 1 -> rand f 1 < 1 ->
  2 * TARGET_RADIUS <= width f -> 2 * TARGET_RADIUS <= height f ->
  exists tg,
    target (spawn st f) = Some tg
    /\ spawnTime tg = now f
    /\ 0 <= tgx tg - TARGET_RADIUS /\ tgx tg + TARGET_RADIUS <= width f
    /\ 0 <= tgy tg - TARGET_RADIUS /\ tgy tg + TARGET_RADIUS <= height f.
Proof.
  intros Hnew Hx0 Hx1 Hy0 Hy1 Hw Hh. unfold spawn.
  assert (Hc : JS.is_null (target st) || (SPAWN_INTERVAL <? now f - lastSpawn st)%Z = true).
  { destruct Hnew as [-> | Hlt]; [reflexivity|].
    apply Z.ltb_lt in Hlt. rewrite Hlt. apply orb_true_r. }
  rewrite Hc. eexists. split; [reflexivity|]. simpl. unfold TARGET_RADIUS in *.
  repeat split; nra.
Qed.

Lemma reaction_time_bounded_witness :
  let f1 := Examples.empty_frame 0 (1 # 2) in
  let f2 := Examples.tip_frame 137 320 240 0 in
  exists st st',
    run_ticks detectFunction (initial 0) [f1] = Some (st, [])
    /\ detectFunction st f2 = Some (st', [IncScore])
    /\ reactionTime st' = Some 137%Z.
Proof.
  intros f1 f2.
  destruct (run_ticks detectFunction (initial 0) [f1]) as [[st ops]|] eqn:H1;
    [|vm_compute in H1; discriminate].
  assert (Hops : ops = []) by (vm_compute in H1; now injection H1 as _ <-).
  subst ops.
  destruct (detectFunction st f2) as [[st' ops']|] eqn:H2;
    [|vm_compute in H1; injection H1 as <-; vm_compute in H2; discriminate].
  assert (Hops : ops' = [IncScore]).
  { vm_compute in H1. injection H1 as <-. vm_compute in H2. now injection H2 as _ <-. }
  subst ops'. exists st, st'. split; [reflexivity|]. split; [exact H2|].
  destruct (reaction_time_bounded 0 [f1] [] st f2 st' H1 H2) as (d & Hd & _).
  vm_compute in H1. injection H1 as <-. vm_compute in H2. injection H2 as <-.
  reflexivity.
Defined.

Lemma new_target_on_canvas_witness :
  exists tg,
    target (spawn (initial 0) (Examples.empty_frame 0 (1 # 2))) = Some tg
    /\ tgx tg + TARGET_RADIUS <= 640.
Proof.
  destruct (new_target_on_canvas (initial 0) (Examples.empty_frame 0 (1 # 2)))
    as (tg & Htg & _ & _ & Hx & _);
    try (vm_compute; first [reflexivity | discriminate]).
  - now left.
  - exists tg. split; [exact Htg | exact Hx].
Defined.

End QuickReactionRounds.

(** ** Random draws *)

Module RandomDraws.

(** [Math.floor(r * n)] for [r] in [0, 1) is an index of an array of
    length [n]. *)
Lemma floor_scaled_range (r : Q) (n : nat) :
  0 <= r -> r < 1 -> (0 < n)%nat ->
  (0 <= JS.floor_scaled r n < Z.of_nat n)%Z.
Proof.
  intros H0 H1 Hn. unfold JS.floor_scaled.
  set (m := inject_Z (Z.of_nat n)).
  assert (Hm : 0 < m).
  { unfold m. change 0 with (inject_Z 0). rewrite <- Zlt_Qlt. lia. }
  split.
  - change 0%Z with (Qfloor 0). apply Qfloor_resp_le. nra.
  - rewrite Zlt_Qlt. apply Qle_lt_trans with (r * m); [apply Qfloor_le|].
    fold m. nra.
Qed.

Lemma index_defined {A} (arr : list A) (r : Q) :
  0 <= r -> r < 1 -> arr <> [] ->
  is_Some (JS.index arr (JS.floor_scaled r (length arr))).
Proof.
  intros H0 H1 Hne.
  assert (Hn : (0 < length arr)%nat) by (destruct arr; [congruence | simpl; lia]).
  destruct (floor_scaled_range r (length arr) H0 H1 Hn) as [Hlo Hhi].
  unfold JS.index. destruct (Z.ltb_spec (JS.floor_scaled r (length arr)) 0); [lia|].
  apply lookup_lt_is_Some. lia.
Qed.

(** With [Math.random()] in [0, 1) every draw of the games is defined: a
    gesture, a direction and a shape are always chosen, never
    [undefined]. *)
Theorem draws_are_defined (r : Q) :
  0 <= r -> r < 1 ->
  is_Some (MemoryMatch.randomGesture r)
  /\ is_Some (SwipeChallenge.randomDirection r)
  /\ (forall st f, rand f 0 = r ->
        is_Some (SimonSays.gesture (SimonSays.startRound (SimonSays.MkState None st) f)))
  /\ (forall f, rand f 0 = r ->
        is_Some (ShapeTracing.shapeType (ShapeTracing.chooseShape ShapeTracing.initial f))).
Proof.
  intros H0 H1.
  split; [now apply index_defined|]. split; [now apply index_defined|].
  split.
  - intros t f Hr. unfold SimonSays.startRound. simpl. rewrite Hr.
    now apply index_defined.
  - intros f Hr. unfold ShapeTracing.chooseShape. simpl. rewrite Hr.
    now apply index_defined.
Qed.

Lemma draws_are_defined_witness : is_Some (MemoryMatch.randomGesture (9 # 10)).
Proof.
  apply (draws_are_defined (9 # 10)); vm_compute; first [reflexivity | discriminate].
Defined.

End RandomDraws.

(** ** BallGame: phases *)

Module BallGameRounds.

Import BallGame.

Implicit Types (st : State) (f : Frame).

Lemma showPhase_fresh st f : lastTime st = now f -> showPhase st f = st.
Proof.
  intros H. unfold showPhase. destruct (bool_decide _); [|reflexivity].
  rewrite H, Z.sub_diag. reflexivity.
Qed.

Lemma inputPhase_other st f : gameState st <> input -> inputPhase st f = Some st.
Proof. intros H. unfold inputPhase. now rewrite bool_decide_eq_false_2. Qed.

(** The Init phase: four balls with their whole radius on the canvas, a
    sequence of one ball index, the refs of a fresh round, [setScore(0)];
    the frame ends in the Show phase and does not look at the hand. The
    callbacks already scheduled stay scheduled. *)
Theorem init_lays_out st f :
  gameState st = init ->
  (forall k, (k < 9)%nat -> 0 <= rand f k /\ rand f k < 1) ->
  2 * BALL_RADIUS <= width f -> 2 * BALL_RADIUS <= height f ->
  exists st',
    detectFunction st f = Some (st', [SetScore 0])
    /\ length (balls st') = BALL_COUNT
    /\ (forall b, b ∈ balls st' ->
          0 <= px b - BALL_RADIUS /\ px b + BALL_RADIUS <= width f
          /\ 0 <= py b - BALL_RADIUS /\ py b + BALL_RADIUS <= height f)
    /\ (exists k, sequence st' = [k] /\ (0 <= k < Z.of_nat BALL_COUNT)%Z)
    /\ gameState st' = show /\ flashIndex st' = 0%nat /\ inputIndex st' = 0%nat
    /\ tappedIdx st' = None /\ feedback st' = None
    /\ lastTime st' = now f /\ timeouts st' = timeouts st.
Proof.
  intros Hinit Hrand Hw Hh.
  exists (MkState (map (randomBall f) (seq 0 BALL_COUNT))
                  [JS.floor_scaled (rand f (2 * BALL_COUNT)%nat) BALL_COUNT]
                  show 0 (now f) 0 None None (timeouts st)).
  split.
  { unfold detectFunction, initPhase. rewrite bool_decide_eq_true_2 by exact Hinit.
    rewrite showPhase_fresh by reflexivity.
    rewrite inputPhase_other by discriminate. reflexivity. }
  cbn [balls sequence gameState flashIndex inputIndex tappedIdx feedback lastTime timeouts].
  split; [reflexivity|]. split.
  { intros b Hb. apply list_elem_of_In, in_map_iff in Hb as (i & <- & Hi).
    apply in_seq in Hi. unfold BALL_COUNT in Hi.
    destruct (Hrand (2 * i)%nat ltac:(lia)) as [Hx0 Hx1].
    destruct (Hrand (2 * i + 1)%nat ltac:(lia)) as [Hy0 Hy1].
    unfold randomBall, BALL_RADIUS in *. cbn [px py]. repeat split; nra. }
  split.
  { eexists. split; [reflexivity|].
    destruct (Hrand 8%nat ltac:(lia)) as [H0 H1].
    apply (RandomDraws.floor_scaled_range _ BALL_COUNT H0 H1). unfold BALL_COUNT. lia. }
  repeat split; reflexivity.
Qed.

(** With a touch registered on a ball other than ball 0, the [forEach] over
    the balls changes nothing. *)
Lemma forEach_debounced f tipX tipY (bs : list point) :
  forall (k : nat) st (touching : bool),
    not_tapped (tappedIdx st) = false ->
    fst (JS.forEach (touchBall f tipX tipY) bs k (st, touching)) = st.
Proof.
  induction bs as [|b bs IH]; intros k st touching Htap; cbn [JS.forEach];
    [reflexivity|].
  unfold touchBall at 2. rewrite Htap.
  destruct (JS.hypot_lt _ _ _); now apply IH.
Qed.

(** The debounce as it works for balls 1 to 3: while such a touch is
    registered, a frame of the Input phase schedules no callback and changes
    no ref, except that it forgets the touch once the finger is on no ball
    and no feedback is showing. *)
Theorem other_balls_debounced st f k st' ops :
  gameState st = input -> tappedIdx st = Some (S k) ->
  detectFunction st f = Some (st', ops) ->
  ops = []
  /\ (st' = st
      \/ (feedback st = None
          /\ st' = MkState (balls st) (sequence st) (gameState st) (flashIndex st)
                     (lastTime st) (inputIndex st) None (feedback st) (timeouts st))).
Proof.
  intros Hin Htap Hstep. unfold detectFunction in Hstep.
  rewrite BallGameClaims.initPhase_other, BallGameClaims.showPhase_other in Hstep
    by (rewrite Hin; discriminate).
  unfold inputPhase in Hstep. rewrite bool_decide_eq_true_2 in Hstep by exact Hin.
  destruct (hands f) as [|lm others].
  { injection Hstep as <- <-. auto. }
  destruct (lm !! 8%nat) as [tip|]; [|discriminate].
  assert (Hnt : not_tapped (tappedIdx st) = false) by now rewrite Htap.
  pose proof (forEach_debounced f (px tip * width f) (py tip * height f)
                (balls st) 0 st false Hnt) as Hsame.
  destruct (JS.forEach _ (balls st) 0%nat (st, false)) as [st1 touching].
  simpl in Hsame. subst st1.
  destruct (negb touching && JS.is_null (feedback st)) eqn:Hc;
    injection Hstep as <- <-; split; auto.
  right. split; [|reflexivity].
  apply andb_true_iff in Hc as [_ Hc]. now destruct (feedback st).
Qed.

(** While the sequence is being shown the hand is not looked at: a frame
    that starts and ends in the Show phase only advances the flash (after
    more than [FLASH_TIME + WAIT_TIME] ms), scores nothing, registers no
    touch and cannot throw. No time passed means no change at all. *)
Theorem show_ignores_hand st f :
  gameState st = show ->
  ((now f - lastTime st <= FLASH_TIME + WAIT_TIME)%Z ->
     detectFunction st f = Some (st, []))
  /\ (gameState (showPhase st f) = show ->
      detectFunction st f = Some (showPhase st f, [])
      /\ tappedIdx (showPhase st f) = tappedIdx st
      /\ feedback (showPhase st f) = feedback st
      /\ inputIndex (showPhase st f) = inputIndex st
      /\ timeouts (showPhase st f) = timeouts st).
Proof.
  intros Hshow.
  assert (Hd : gameState (showPhase st f) = show ->
               detectFunction st f = Some (showPhase st f, [])).
  { intros H. unfold detectFunction.
    rewrite BallGameClaims.initPhase_other by (rewrite Hshow; discriminate).
    rewrite inputPhase_other by (rewrite H; discriminate). reflexivity. }
  split.
  - intros Ht.
    assert (Hs : showPhase st f = st).
    { unfold showPhase. destruct (bool_decide _); [|reflexivity].
      destruct (Z.ltb_spec (FLASH_TIME + WAIT_TIME) (now f - lastTime st)); [lia|].
      reflexivity. }
    rewrite <- Hs at 2. apply Hd. now rewrite Hs.
  - intros H. split; [now apply Hd|]. revert H. unfold showPhase.
    destruct (bool_decide _); [|auto]. destruct (_ <? _)%Z; [|auto].
    destruct (_ <=? _)%nat; simpl; [discriminate | auto].
Qed.

(** A wrong tap: when its feedback callback runs, the machine goes back to
    Init and lifts the debounce, scoring nothing; the next frame lays out new
    balls, starts a one-element sequence with the input cursor at 0, and
    calls [setScore(0)]. *)
Theorem wrong_tap_restarts st (dateNow : Z) (r : Q) f :
  feedback st = Some wrong ->
  let st1 := fst (feedbackTimeout st dateNow r) in
  snd (feedbackTimeout st dateNow r) = []
  /\ gameState st1 = init /\ feedback st1 = None /\ tappedIdx st1 = None
  /\ sequence st1 = sequence st /\ balls st1 = balls st
  /\ exists st2,
       detectFunction st1 f = Some (st2, [SetScore 0])
       /\ balls st2 = map (randomBall f) (seq 0 BALL_COUNT)
       /\ length (sequence st2) = 1%nat
       /\ inputIndex st2 = 0%nat /\ flashIndex st2 = 0%nat
       /\ gameState st2 = show.
Proof.
  intros Hw st1. unfold st1, feedbackTimeout.
  rewrite bool_decide_eq_true_2 by exact Hw. cbn [fst snd].
  repeat (split; [reflexivity|]).
  eexists. split.
  - unfold detectFunction, initPhase. rewrite bool_decide_eq_true_2 by reflexivity.
    rewrite showPhase_fresh by reflexivity.
    rewrite inputPhase_other by discriminate. reflexivity.
  - repeat split; reflexivity.
Qed.

(** A correct tap: when its feedback callback runs, the input cursor moves
    on by one and the debounce is lifted; if that was the last element of
    the sequence the callback scores once, appends one ball index (below
    [BALL_COUNT] for [Math.random()] in [0, 1)) to the sequence, keeping
    what was there, and starts showing from the first element; otherwise it
    scores nothing and leaves sequence and phase alone. *)
Theorem correct_tap_advances st (dateNow : Z) (r : Q) :
  feedback st <> Some wrong ->
  0 <= r -> r < 1 ->
  let st1 := fst (feedbackTimeout st dateNow r) in
  inputIndex st1 = S (inputIndex st)
  /\ feedback st1 = None /\ tappedIdx st1 = None /\ balls st1 = balls st
  /\ (S (inputIndex st) = length (sequence st) ->
      snd (feedbackTimeout st dateNow r) = [IncScore]
      /\ (exists k, sequence st1 = sequence st ++ [k] /\ (0 <= k < Z.of_nat BALL_COUNT)%Z)
      /\ gameState st1 = show /\ flashIndex st1 = 0%nat /\ lastTime st1 = dateNow)
  /\ (S (inputIndex st) <> length (sequence st) ->
      snd (feedbackTimeout st dateNow r) = []
      /\ sequence st1 = sequence st /\ gameState st1 = gameState st).
Proof.
  intros Hw H0 H1 st1. unfold st1, feedbackTimeout.
  rewrite bool_decide_eq_false_2 by exact Hw.
  destruct (Nat.eqb_spec (S (inputIndex st)) (length (sequence st))) as [E | E];
    cbn [fst snd inputIndex feedback tappedIdx balls sequence gameState flashIndex lastTime].
  - repeat (split; [reflexivity|]). split; [|intros Hne; congruence].
    intros _. split; [reflexivity|]. split; [|repeat split; reflexivity].
    eexists. split; [reflexivity|].
    apply (RandomDraws.floor_scaled_range _ BALL_COUNT H0 H1). unfold BALL_COUNT. lia.
  - repeat (split; [reflexivity|]). split; [intros He; congruence|].
    intros _. repeat split; reflexivity.
Qed.

Lemma init_lays_out_witness :
  exists st',
    detectFunction initial Examples.ball_init_frame = Some (st', [SetScore 0])
    /\ length (balls st') = BALL_COUNT.
Proof.
  destruct (init_lays_out initial Examples.ball_init_frame) as (st' & H1 & H2 & _).
  - reflexivity.
  - intros k Hk. do 9 (destruct k as [|k]; [vm_compute; split; [discriminate | reflexivity]|]).
    lia.
  - vm_compute. discriminate.
  - vm_compute. discriminate.
  - exists st'. split; [exact H1 | exact H2].
Defined.

Lemma other_balls_debounced_witness :
  exists st st',
    run initial (firstn 3 Examples.resting_touch_other) = Some (st, [SetScore 0])
    /\ detectFunction st (Examples.tip_frame 1316 300 100 0) = Some (st', [])
    /\ st' = st.
Proof.
  destruct (run initial (firstn 3 Examples.resting_touch_other)) as [[st ops]|] eqn:Hrun;
    [|vm_compute in Hrun; discriminate].
  assert (Hops : ops = [SetScore 0]) by (vm_compute in Hrun; now injection Hrun as _ <-).
  subst ops.
  assert (Hin : gameState st = input)
    by (vm_compute in Hrun; now injection Hrun as <-).
  assert (Htap : tappedIdx st = Some 1%nat)
    by (vm_compute in Hrun; now injection Hrun as <-).
  destruct (detectFunction st (Examples.tip_frame 1316 300 100 0)) as [[st' ops']|] eqn:Hstep;
    [|vm_compute in Hrun; injection Hrun as <-; vm_compute in Hstep; discriminate].
  destruct (other_balls_debounced st _ 0 st' ops' Hin Htap Hstep) as [-> [-> | [Hf _]]].
  - exists st, st. auto.
  - vm_compute in Hrun. injection Hrun as <-. discriminate Hf.
Defined.

Lemma show_ignores_hand_witness :
  let st := MkState [Point 100 100] [0%Z; 0%Z] show 0 1000 0 None None [] in
  detectFunction st (Examples.tip_frame 1500 100 100 0) = Some (st, []).
Proof.
  intros st.
  apply (proj1 (show_ignores_hand st (Examples.tip_frame 1500 100 100 0) eq_refl)).
  vm_compute. discriminate.
Defined.

Lemma wrong_tap_restarts_witness :
  let st := MkState [Point 100 100; Point 300 100] [1%Z] input 1 1000 0
                    (Some 0%nat) (Some wrong) [] in
  gameState (fst (feedbackTimeout st 1800 0)) = init.
Proof.
  intros st.
  exact (proj1 (proj2 (wrong_tap_restarts st 1800 0 Examples.ball_init_frame eq_refl))).
Defined.

Lemma correct_tap_advances_witness :
  let st := MkState [Point 100 100; Point 300 100] [1%Z] input 1 1000 0
                    (Some 1%nat) (Some correct) [] in
  snd (feedbackTimeout st 1800 (1 # 2)) = [IncScore].
Proof.
  intros st.
  destruct (correct_tap_advances st 1800 (1 # 2)) as (_ & _ & _ & _ & H & _).
  - discriminate.
  - vm_compute. discriminate.
  - reflexivity.
  - apply H. reflexivity.
Defined.

End BallGameRounds.

(** ** GameWrapper: the session *)

Module GameWrapperSession.

Import GameWrapper.

Section WithGame.

Context {G : Type} (tick : G -> Frame -> option (G * list ScoreOp)).

(** Once the game is over nothing moves any more: the countdown, the score
    and the refs of the game stay as they are whatever fires, and no frame
    can throw. *)
Theorem game_over_is_final (w : State) (g : G) (evs : list Event) :
  gameOver w = true -> session tick w g evs = Some (w, g).
Proof.
  intros Ho. induction evs as [|ev evs IH]; [reflexivity|]. simpl.
  assert (Hstep : step tick w g ev = Some (w, g)).
  { destruct ev as [|f]; simpl.
    - unfold countdown. rewrite Ho, orb_true_r. reflexivity.
    - unfold loop. rewrite Ho.
      destruct (negb _); [reflexivity|]. now destruct (Qeq_bool _ _). }
  rewrite Hstep. exact IH.
Qed.

(** A frame never touches the countdown. *)
Lemma loop_keeps_clock (w w' : State) (g g' : G) (f : Frame) :
  loop tick w g f = Some (w', g') ->
  timeLeft w' = timeLeft w /\ gameStarted w' = gameStarted w
  /\ gameOver w' = gameOver w.
Proof.
  unfold loop. destruct (negb _); [now intros [= <- <-]|].
  destruct (Qeq_bool _ _); [now intros [= <- <-]|].
  destruct (gameOver w) eqn:Ho; [intros [= <- <-]; auto|].
  destruct (tick g f) as [[g1 ops]|]; [|discriminate].
  intros [= <- <-]. simpl. auto.
Qed.

Lemma running_session (evs : list Event) : forall (w w' : State) (g g' : G),
  gameStarted w = true ->
  (gameOver w = false /\ (1 <= timeLeft w)%Z) \/ (gameOver w = true /\ timeLeft w = 0%Z) ->
  session tick w g evs = Some (w', g') ->
  timeLeft w' = Z.max 0 (timeLeft w - Z.of_nat (seconds evs))
  /\ (gameOver w' = true <-> gameOver w = true \/ (timeLeft w <= Z.of_nat (seconds evs))%Z).
Proof.
  induction evs as [|ev evs IH]; intros w w' g g' Hs Hinv; simpl.
  - intros [= <- <-]. destruct Hinv as [[Ho H1] | [Ho H0]]; rewrite Ho.
    + split; [lia|]. split; [discriminate|]. intros [? | ?]; [discriminate | lia].
    + split; [lia|]. split; intros; auto.
  - destruct (step tick w g ev) as [[w1 g1]|] eqn:Hstep; [|discriminate].
    intros Hrun. destruct ev as [|f].
    + simpl in Hstep. injection Hstep as <- <-.
      assert (Hs1 : gameStarted (countdown w) = true).
      { unfold countdown. destruct (_ || _); [exact Hs|].
        destruct (_ <=? _)%Z; exact Hs. }
      destruct Hinv as [[Ho H1] | [Ho H0]].
      * destruct (Z.leb_spec (timeLeft w) 1) as [Hle | Hgt].
        -- assert (Hc : gameOver (countdown w) = true /\ timeLeft (countdown w) = 0%Z).
           { unfold countdown. rewrite Hs, Ho. simpl.
             destruct (Z.leb_spec (timeLeft w) 1); [simpl; auto | lia]. }
           apply (IH _ _ _ _ Hs1 (or_intror Hc)) in Hrun as [Ht Hov].
           destruct Hc as [Hc1 Hc2]. rewrite Hc1, Hc2 in *. rewrite Ho.
           split; [lia|]. rewrite Hov. split; intros _; [right; lia | now left].
        -- assert (Hc : gameOver (countdown w) = false
                        /\ timeLeft (countdown w) = (timeLeft w - 1)%Z).
           { unfold countdown. rewrite Hs, Ho. simpl.
             destruct (Z.leb_spec (timeLeft w) 1); [lia | simpl; auto]. }
           destruct Hc as [Hc1 Hc2].
           apply (IH _ _ _ _ Hs1) in Hrun as [Ht Hov];
             [|left; split; [exact Hc1 | lia]].
           rewrite Hc1, Hc2 in *. rewrite Ho. split; [lia|]. rewrite Hov.
           split; (intros [? | ?]; [discriminate | right; lia]).
      * assert (Hc : countdown w = w).
        { unfold countdown. rewrite Ho, orb_true_r. reflexivity. }
        rewrite Hc in *. apply (IH _ _ _ _ Hs (or_intror (conj Ho H0))) in Hrun as [Ht Hov].
        rewrite Ho, H0 in *. split; [lia|]. rewrite Hov. split; intros; now left.
    + simpl in Hstep. destruct (loop_keeps_clock _ _ _ _ _ Hstep) as (Ht & Hst & Hov).
      assert (Hs1 : gameStarted w1 = true) by congruence.
      rewrite <- Ht, <- Hov. apply (IH w1 w' g1 g' Hs1); [|exact Hrun].
      rewrite Ht, Hov. exact Hinv.
Qed.

(** A game lasts exactly [GAME_DURATION] ticks of the interval, whatever
    frames run in between: from the press of Start, after a session in which
    the interval fired [n] times the time left is [max 0 (60 - n)] and the
    game is over exactly when [n >= 60]. *)
Theorem game_lasts_sixty_seconds (w w' : State) (g g' : G) (evs : list Event) :
  session tick (handleStart w) g evs = Some (w', g') ->
  timeLeft w' = Z.max 0 (GAME_DURATION - Z.of_nat (seconds evs))
  /\ (gameOver w' = true <-> (60 <= seconds evs)%nat).
Proof.
  intros Hrun.
  apply running_session in Hrun as [Ht Hov]; simpl; auto;
    [|left; split; [reflexivity | unfold GAME_DURATION; lia]].
  simpl in *. split; [exact Ht|]. rewrite Hov. unfold GAME_DURATION.
  split; [intros [? | ?]; [discriminate | lia] | intros; right; lia].
Qed.

End WithGame.

Lemma game_over_is_final_witness :
  session SwipeChallenge.detectFunction (MkState 3 0 true true true)
    (SwipeChallenge.initial 0) [AnimationFrame (Examples.tip_frame 16 100 100 0); Second]
  = Some (MkState 3 0 true true true, SwipeChallenge.initial 0).
Proof. apply game_over_is_final. reflexivity. Defined.

Lemma game_lasts_sixty_seconds_witness :
  let evs := [Second; AnimationFrame (Examples.tip_frame 1016 100 100 0); Second] in
  exists w' g',
    session SwipeChallenge.detectFunction (handleStart (modelLoaded initial))
      (SwipeChallenge.initial 0) evs = Some (w', g')
    /\ timeLeft w' = 58%Z.
Proof.
  intros evs.
  destruct (session SwipeChallenge.detectFunction (handleStart (modelLoaded initial))
              (SwipeChallenge.initial 0) evs) as [[w' g']|] eqn:Hrun;
    [|vm_compute in Hrun; discriminate].
  exists w', g'. split; [reflexivity|].
  exact (proj1 (game_lasts_sixty_seconds _ _ _ _ _ _ Hrun)).
Defined.

End GameWrapperSession.

(** ** Profile: the highest score *)

Module ProfileScores.

Import Profile.

Lemma maxOf_upper (xs : list Q) : forall x : Q,
  x <= maxOf x xs /\ (forall y, In y xs -> y <= maxOf x xs).
Proof.
  unfold maxOf. induction xs as [|y xs IH]; intros x; simpl.
  - split; [lra | tauto].
  - destruct (IH (Qmax x y)) as [H1 H2]. split.
    + eapply Qle_trans; [apply Q.le_max_l | exact H1].
    + intros z [<- | Hz]; [|now apply H2].
      eapply Qle_trans; [apply Q.le_max_r | exact H1].
Qed.

Lemma Qmax_either (x y : Q) : Qmax x y = x \/ Qmax x y = y.
Proof.
  unfold Qmax, GenericMinMax.gmax. destruct (x ?= y); auto.
Qed.

Lemma maxOf_attained (xs : list Q) : forall x : Q,
  maxOf x xs = x \/ In (maxOf x xs) xs.
Proof.
  unfold maxOf. induction xs as [|y xs IH]; intros x; simpl; [now left|].
  destruct (IH (Qmax x y)) as [H | H]; [|auto].
  rewrite H. destruct (Qmax_either x y) as [-> | ->]; auto.
Qed.

Lemma in_getScoresByGame (scores : list Score) (type : GameType) (s : Score) :
  In s (getScoresByGame scores type) <-> In s scores /\ gameType s = type.
Proof.
  unfold getScoresByGame. rewrite filter_In, bool_decide_eq_true. reflexivity.
Qed.

(** The highest score shown for a game is 0 when the player has no score
    for it; otherwise it is the score of one of the player's entries for
    that game, and no entry for that game has a higher one. Entries of other
    games do not count. *)
Theorem highest_score_is_maximum (scores : list Score) (type : GameType) :
  ((forall s, In s scores -> gameType s <> type) -> getHighestScore scores type = 0)
  /\ (forall s, In s scores -> gameType s = type ->
        score s <= getHighestScore scores type
        /\ exists top, In top scores /\ gameType top = type
                       /\ score top = getHighestScore scores type).
Proof.
  split.
  - intros Hnone. unfold getHighestScore.
    destruct (getScoresByGame scores type) as [|s rest] eqn:E; [reflexivity|].
    assert (Hs : In s (getScoresByGame scores type)) by (rewrite E; now left).
    apply in_getScoresByGame in Hs as [Hin Ht]. now apply Hnone in Hin.
  - intros s Hin Ht.
    assert (Hs : In s (getScoresByGame scores type)) by now apply in_getScoresByGame.
    unfold getHighestScore.
    destruct (getScoresByGame scores type) as [|s0 rest] eqn:E; [destruct Hs|].
    assert (Hsub : forall x, In x (s0 :: rest) -> In x scores /\ gameType x = type).
    { intros x Hx. apply in_getScoresByGame. now rewrite E. }
    destruct (maxOf_upper (map score rest) (score s0)) as [H0 Hrest]. split.
    + destruct Hs as [<- | Hs]; [exact H0|]. apply Hrest. now apply in_map.
    + destruct (maxOf_attained (map score rest) (score s0)) as [Hm | Hm].
      * exists s0. destruct (Hsub s0 (or_introl eq_refl)) as [? ?]. auto.
      * apply in_map_iff in Hm as (top & Htop & Hin').
        exists top. destruct (Hsub top (or_intror Hin')) as [? ?]. auto.
Qed.

Lemma highest_score_is_maximum_witness :
  let scores := [MkScore 3 SimonSays; MkScore 7 BallGame; MkScore 5 SimonSays] in
  getHighestScore scores QuickReaction = 0
  /\ score (MkScore 3 SimonSays) <= getHighestScore scores SimonSays.
Proof.
  intros scores.
  destruct (highest_score_is_maximum scores QuickReaction) as [H0 _].
  destruct (highest_score_is_maximum scores SimonSays) as [_ H1].
  split.
  - apply H0. intros s [<- | [<- | [<- | []]]]; discriminate.
  - apply (H1 (MkScore 3 SimonSays)); [now left | reflexivity].
Defined.

End ProfileScores.

(** * The authentication middleware *)

Module AuthMiddlewareFacts.
Import Stdlib.Strings.Ascii Stdlib.Strings.String.
Import AuthMiddleware.
Local Open Scope string_scope.

Lemma truthy_tokenOf_bearer a :
  bearer (Some a) = true -> prefix "Bearer" a = true.
Proof.
  unfold bearer. intros H. apply andb_true_iff in H. tauto.
Qed.

(** The middleware answers once, except for a header that starts
    with [Bearer] but carries no token after the first space (nothing,
    or an empty piece): then it produces two effects, and the second is
    the 401 response [Not authorized, no token], sent after the
    response or the [next()] of the [try] block. *)
Theorem bearer_without_token_answers_twice {Id User : Type}
    (verify : option string -> option Id)
    (findById : Id -> option (option User))
    (authorization : option string) :
  if bearer authorization && negb (truthy (authorization ≫= tokenOf))
  then exists e : Effect User,
      protect verify findById authorization
      = [e; Respond 401 "Not authorized, no token"]
  else exists e : Effect User,
      protect verify findById authorization = [e].
Proof.
  unfold protect.
  destruct authorization as [a|]; cbn [mbind option_bind].
  - destruct (bearer (Some a)); cbn [andb].
    + destruct (truthy (tokenOf a)); cbn [negb];
        destruct (verify (tokenOf a)) as [id|];
        try destruct (findById id) as [u|]; cbn [app]; eauto.
    + cbn [truthy app]. eauto.
  - cbn [bearer andb truthy app]. eauto.
Qed.

(** [next()] is reached only for a header that starts with
    [Bearer], whose second piece [jwt.verify] accepted and whose user
    lookup did not reject; [req.user] is then what the lookup gave
    (possibly [null]).  Nothing precedes the [next()], and nothing
    follows it unless the token is empty or missing. *)
Theorem next_means_verified {Id User : Type}
    (verify : option string -> option Id)
    (findById : Id -> option (option User))
    (authorization : option string) (user : option User) :
  In (Next user) (protect verify findById authorization) ->
  exists a id,
    authorization = Some a
    /\ prefix "Bearer" a = true
    /\ verify (tokenOf a) = Some id
    /\ findById id = Some user
    /\ protect verify findById authorization
       = if truthy (tokenOf a) then [Next user]
         else [Next user; Respond 401 "Not authorized, no token"].
Proof.
  unfold protect.
  destruct authorization as [a|].
  - destruct (bearer (Some a)) eqn:Hb.
    + destruct (verify (tokenOf a)) as [id|] eqn:Hv.
      * destruct (findById id) as [u|] eqn:Hf.
        -- intros Hin.
           assert (Hu : u = user).
           { destruct (truthy (tokenOf a)); cbn in Hin;
               intuition congruence. }
           subst u. exists a, id.
           repeat split; auto using truthy_tokenOf_bearer.
        -- destruct (truthy (tokenOf a)); cbn; intuition discriminate.
      * destruct (truthy (tokenOf a)); cbn; intuition discriminate.
    + cbn. intuition discriminate.
  - cbn. intuition discriminate.
Qed.

(** The header [Bearer] alone, with a verifier that rejects a missing
    token: both 401 calls are made. *)
Example bare_bearer_header :
  protect AuthExamples.accept_secret AuthExamples.one_user (Some "Bearer")
  = [Respond 401 "Not authorized, token failed";
     Respond 401 "Not authorized, no token"].
Proof. reflexivity. Qed.

Lemma next_means_verified_witness :
  exists a id,
    Some "Bearer secret" = Some a
    /\ prefix "Bearer" a = true
    /\ AuthExamples.accept_secret (tokenOf a) = Some id
    /\ AuthExamples.one_user id = Some (Some "ada")
    /\ protect AuthExamples.accept_secret AuthExamples.one_user (Some "Bearer secret")
       = if truthy (tokenOf a) then [Next (Some "ada")]
         else [Next (Some "ada"); Respond 401 "Not authorized, no token"].
Proof.
  apply (next_means_verified AuthExamples.accept_secret AuthExamples.one_user
           (Some "Bearer secret") (Some "ada")).
  vm_compute. left. reflexivity.
Defined.

End AuthMiddlewareFacts.
